(** * DesignManager: settings reconciliation, style override and upload guard

    A shallow embedding of [src/components/DesignManager.tsx].

    The component keeps one in-memory settings object ([designSettings]),
    loads it from two rows of the [server_settings] table, writes it back as
    two rows, installs the custom CSS as a [<style>] element with a fixed id,
    and uploads a hero image after checking its type and size.

    Conventions of the model:
    - property names, setting keys and element ids are only ever compared for
      equality, so they are [string]s;
    - text whose characters are inspected ([trim], [startsWith], [split]) is a
      sequence of UTF-16 code units, [jsstring];
    - a JavaScript object used as a property bag is a [gmap string jsval],
      its own properties; reading a property that is not there gives
      [JUndefined]; the object [Object.assign] writes to also records
      whether its prototype has become [null], which decides what a write
      to [__proto__] does;
    - the handlers are [async] functions run on one thread: every [await] is a
      sequencing point, so a handler is a state transformer on the [world]
      that may end by throwing. *)

From Stdlib Require Import NArith ZArith Ascii String DecimalString.
From Stdlib Require DecimalN.
From stdpp Require Import base option list strings gmap fin_maps.

(** ** JavaScript values and strings *)

Definition jsstring := list N.

(** An ASCII literal as code units. *)
Definition js (s : string) : jsstring :=
  (fun a => N_of_ascii a) <$> list_ascii_of_string s.

Inductive jsval :=
  | JUndefined
  | JNull
  | JBool (b : bool)
  | JNum (z : Z)
  | JStr (s : jsstring).

#[global] Instance jsval_eq_dec : EqDecision jsval.
Proof. solve_decision. Defined.

(** ToBoolean. *)
Definition truthy (v : jsval) : bool :=
  match v with
  | JUndefined | JNull => false
  | JBool b => b
  | JNum z => negb (Z.eqb z 0)
  | JStr s => match s with [] => false | _ :: _ => true end
  end.

(** WhiteSpace and LineTerminator code points of ECMAScript, the ones
    [String.prototype.trim] strips. *)
Definition isWhiteSpace (c : N) : bool :=
  ((9 <=? c) && (c <=? 13) || (c =? 32) || (c =? 160) || (c =? 5760)
   || (8192 <=? c) && (c <=? 8202) || (c =? 8232) || (c =? 8233)
   || (c =? 8239) || (c =? 8287) || (c =? 12288) || (c =? 65279))%N.

Fixpoint trimStart (s : jsstring) : jsstring :=
  match s with
  | [] => []
  | c :: r => if isWhiteSpace c then trimStart r else s
  end.

Definition trimEnd (s : jsstring) : jsstring := rev (trimStart (rev s)).

Definition trim (s : jsstring) : jsstring := trimEnd (trimStart s).

Fixpoint startsWith (s p : jsstring) : bool :=
  match p, s with
  | [], _ => true
  | _ :: _, [] => false
  | a :: p', b :: s' => (b =? a)%N && startsWith s' p'
  end.

(** [s.split(sep)] for a one-unit separator: never an empty array. *)
Fixpoint split (sep : N) (s : jsstring) : list jsstring :=
  match s with
  | [] => [[]]
  | c :: r =>
      if (c =? sep)%N then [] :: split sep r
      else match split sep r with
           | [] => [[c]]
           | w :: ws => (c :: w) :: ws
           end
  end.

(** [arr.pop()] as an expression: the last element, [undefined] on []. *)
Definition pop (l : list jsstring) : jsval :=
  match last l with
  | Some x => JStr x
  | None => JUndefined
  end.

(** Number-to-string of a non-negative integer (as [Date.now()] gives). *)
Definition numberToString (n : N) : jsstring :=
  js (NilEmpty.string_of_uint (N.to_uint n)).

(** Interpolation of a value in a template literal. *)
Definition toStr (v : jsval) : jsstring :=
  match v with
  | JUndefined => js "undefined"
  | JNull => js "null"
  | JBool true => js "true"
  | JBool false => js "false"
  | JNum z =>
      if (z <? 0)%Z then js "-" ++ numberToString (Z.to_N (- z))
      else numberToString (Z.to_N z)
  | JStr s => s
  end.

(** ** Objects *)

(** [o.k] for a name [k] that [Object.prototype] does not define, as
    every name this component reads. *)
Definition get (o : gmap string jsval) (k : string) : jsval :=
  default JUndefined (o !! k).

(** An object under construction: its own properties, and whether its
    prototype has become [null]. An object literal starts with
    [Object.prototype], whose one setter is [__proto__]. *)
Record object := Obj {
  own : gmap string jsval;
  null_proto : bool
}.

(** [{}] *)
Definition empty_object : object := Obj ∅ false.

(** [o[k] = v], the [[Set]] of an ordinary object. Every name but
    [__proto__] becomes (or stays) an own property. [__proto__] is written
    as an own property only where one exists already or where the prototype
    is [null]; otherwise the inherited setter runs, which makes the
    prototype [null] for [null] and ignores every other primitive. *)
Definition obj_set (k : string) (v : jsval) (o : object) : object :=
  if decide (k = "__proto__") then
    match own o !! k with
    | Some _ => Obj (<[k := v]> (own o)) (null_proto o)
    | None =>
        if null_proto o then Obj (<[k := v]> (own o)) true
        else match v with
             | JNull => Obj (own o) true
             | _ => o
             end
    end
  else Obj (<[k := v]> (own o)) (null_proto o).

(** [Object.assign(target, source)]: each own property of the source is
    written to the target with [[Set]]. *)
Definition Object_assign (target : object) (source : gmap string jsval)
  : object :=
  map_fold obj_set target source.

(** A JSON value as a column of the table can hold it. Property values and
    array elements are primitives. *)
Inductive json :=
  | JsonNull
  | JsonBool (b : bool)
  | JsonNum (z : Z)
  | JsonStr (s : jsstring)
  | JsonArr (l : list jsval)
  | JsonObj (o : gmap string jsval).

#[global] Instance json_eq_dec : EqDecision json.
Proof. solve_decision. Defined.

(** The name of the property at an index. *)
Definition index_key (i : nat) : string :=
  NilEmpty.string_of_uint (Nat.to_uint i).

Definition indexed (l : list jsval) : gmap string jsval :=
  list_to_map (imap (fun i x => (index_key i, x)) l).

(** The own enumerable properties [Object.assign] finds in a source:
    none for [null], a boolean or a number, the indexed units of a string,
    the indexed elements of an array. *)
Definition own_props (v : json) : gmap string jsval :=
  match v with
  | JsonNull | JsonBool _ | JsonNum _ => ∅
  | JsonStr s => indexed ((fun c => JStr [c]) <$> s)
  | JsonArr l => indexed l
  | JsonObj o => o
  end.

(** What [JSON.stringify] keeps of an object sent over the wire: properties
    whose value is [undefined] are left out. *)
Definition toJSON (o : gmap string jsval) : gmap string jsval :=
  filter (fun kv => kv.2 ≠ JUndefined) o.

(** ** The document *)

Record element := Element {
  tagName : string;
  id : string;
  textContent : jsstring
}.

#[global] Instance element_eq_dec : EqDecision element.
Proof. solve_decision. Defined.

(** The elements of the page in document order, those under [<head>] first.
    Nesting below the two containers plays no role here. *)
Record document := Document {
  head : list element;
  body : list element
}.

Definition all_elements (d : document) : list element := head d ++ body d.

Definition has_id (i : string) (e : element) : bool := bool_decide (id e = i).

Definition getElementById (d : document) (i : string) : option element :=
  find (has_id i) (all_elements d).

(** Detach the first element carrying the id from a list of siblings. *)
Fixpoint remove_first (i : string) (l : list element) : list element :=
  match l with
  | [] => []
  | e :: r => if has_id i e then r else e :: remove_first i r
  end.

(** [el.remove()] for the element [getElementById] returned. *)
Definition remove_found (i : string) (d : document) : document :=
  if existsb (has_id i) (head d)
  then Document (remove_first i (head d)) (body d)
  else Document (head d) (remove_first i (body d)).

Definition head_appendChild (e : element) (d : document) : document :=
  Document (head d ++ [e]) (body d).

(** ** The world the handlers act on *)

Inductive exn :=
  | PostgrestError (msg : string)
  | StorageError (msg : string)
  | TypeError (msg : string).

(** A row as [select('setting_key, setting_value')] returns it: the value
    is whatever JSON the column holds. *)
Record row := MkRow {
  setting_key : string;
  setting_value : json
}.

(** A row holding a JSON object, as every row this component writes. *)
Definition Row (key : string) (o : gmap string jsval) : row :=
  MkRow key (JsonObj o).

(** The argument of [upsert]. *)
Record upsert_row := UpsertRow {
  u_setting_key : string;
  u_setting_value : gmap string jsval;
  u_updated_at : jsstring
}.

(** What the table keeps under a key. *)
Record stored := Stored {
  st_value : gmap string jsval;
  st_updated_at : jsstring
}.

(** [{ data, error }] of the select. *)
Record response := Response {
  data : option (list row);
  error : option exn
}.

Record File := MkFile {
  name : jsstring;
  type : jsstring;
  size : N
}.

Record toast_msg := Toast {
  title : string;
  description : string;
  destructive : bool
}.

(** The calls that reach the two remote adapters, in the order issued. *)
Inductive call :=
  | CSelect (keys : list string)
  | CUpsert (r : upsert_row)
  | CUpload (bucket : string) (path : jsstring) (f : File)
  | CGetPublicUrl (bucket : string) (path : jsstring).

Record world := World {
  designSettings : gmap string jsval;
  isLoading : bool;
  uploading : bool;
  server_settings : gmap string stored;
  page : document;
  calls : list call;
  toasts : list toast_msg;
  console : list string;
  ticks : nat
}.

(** What the outside answers during one handler run: the result of the
    select, whether an upsert or an upload is refused, the public URL of a
    path, and the time in milliseconds at each reading of the clock. *)
Record backend := Backend {
  select_response : response;
  upsert_error : upsert_row -> option exn;
  upload_error : jsstring -> option exn;
  publicUrl : jsstring -> jsstring;
  clock : nat -> N;
  toISOString : N -> jsstring
}.

(** ** Handlers as state transformers that may throw *)

Inductive outcome (A : Type) :=
  | Return (a : A)
  | Throw (e : exn).
Arguments Return {A} a.
Arguments Throw {A} e.

Definition M (A : Type) : Type := world -> outcome A * world.

#[global] Instance M_ret : MRet M := fun A a w => (Return a, w).

Definition throw {A} (e : exn) : M A := fun w => (Throw e, w).

(** Sequencing: what an [await], or one statement after another, does. An
    exception skips the rest. *)
#[global] Instance M_bind : MBind M := fun A B k m w =>
  match m w with
  | (Return a, w') => k a w'
  | (Throw e, w') => (Throw e, w')
  end.

(** [try { body } catch (e) { handler e }] *)
Definition try_catch {A} (body : M A) (handler : exn -> M A) : M A :=
  fun w =>
    match body w with
    | (Return a, w') => (Return a, w')
    | (Throw e, w') => handler e w'
    end.

(** [try { body } finally { fin }], with a [fin] that does not throw or
    return. *)
Definition try_finally {A} (body : M A) (fin : M unit) : M A :=
  fun w =>
    match body w with
    | (r, w') => (r, snd (fin w'))
    end.

Definition when (b : bool) (m : M unit) : M unit :=
  if b then m else mret tt.

Definition modify (f : world -> world) : M unit := fun w => (Return tt, f w).

Definition gets {A} (f : world -> A) : M A := fun w => (Return (f w), w).

Definition set_designSettings (s : gmap string jsval) (w : world) : world :=
  World s (isLoading w) (uploading w) (server_settings w) (page w)
        (calls w) (toasts w) (console w) (ticks w).

Definition set_isLoading (b : bool) (w : world) : world :=
  World (designSettings w) b (uploading w) (server_settings w) (page w)
        (calls w) (toasts w) (console w) (ticks w).

Definition set_uploading (b : bool) (w : world) : world :=
  World (designSettings w) (isLoading w) b (server_settings w) (page w)
        (calls w) (toasts w) (console w) (ticks w).

Definition set_server_settings (t : gmap string stored) (w : world) : world :=
  World (designSettings w) (isLoading w) (uploading w) t (page w)
        (calls w) (toasts w) (console w) (ticks w).

Definition set_page (d : document) (w : world) : world :=
  World (designSettings w) (isLoading w) (uploading w) (server_settings w) d
        (calls w) (toasts w) (console w) (ticks w).

Definition log_call (c : call) (w : world) : world :=
  World (designSettings w) (isLoading w) (uploading w) (server_settings w)
        (page w) (calls w ++ [c]) (toasts w) (console w) (ticks w).

Definition push_toast (t : toast_msg) (w : world) : world :=
  World (designSettings w) (isLoading w) (uploading w) (server_settings w)
        (page w) (calls w) (toasts w ++ [t]) (console w) (ticks w).

Definition push_console (s : string) (w : world) : world :=
  World (designSettings w) (isLoading w) (uploading w) (server_settings w)
        (page w) (calls w) (toasts w) (console w ++ [s]) (ticks w).

Definition tick (w : world) : world :=
  World (designSettings w) (isLoading w) (uploading w) (server_settings w)
        (page w) (calls w) (toasts w) (console w) (S (ticks w)).

Definition setDesignSettings (s : gmap string jsval) : M unit :=
  modify (set_designSettings s).
Definition setIsLoading (b : bool) : M unit := modify (set_isLoading b).
Definition setUploading (b : bool) : M unit := modify (set_uploading b).
Definition toast (t : toast_msg) : M unit := modify (push_toast t).
Definition console_error (s : string) : M unit := modify (push_console s).

(** [if (err) throw err] *)
Definition throw_if (err : option exn) : M unit :=
  match err with
  | Some e => throw e
  | None => mret tt
  end.

(** ** The style override *)

Definition custom_design_css : string := "custom-design-css".

(** [updateCustomCSS(css)] on the document: the element found under the
    fixed id is removed, then a [<style>] with that id and the text is
    appended to [<head>] unless the text trims to nothing. *)
Definition remove_existing (d : document) : document :=
  match getElementById d custom_design_css with
  | Some _ => remove_found custom_design_css d
  | None => d
  end.

Definition updateCustomCSS (css : jsstring) (d : document) : document :=
  let d1 := remove_existing d in
  if truthy (JStr (trim css))
  then head_appendChild (Element "style" custom_design_css css) d1
  else d1.

(** The call [updateCustomCSS(v)] with whatever value the settings object
    holds: on a value that is not a string the removal has happened when
    [css.trim] fails. *)
Definition call_updateCustomCSS (v : jsval) : M unit :=
  match v with
  | JStr css => modify (fun w => set_page (updateCustomCSS css (page w)) w)
  | _ =>
      modify (fun w => set_page (remove_existing (page w)) w);;
      throw (TypeError "css.trim is not a function")
  end.

(** The style overrides active in a document. *)
Definition overrides (d : document) : list element :=
  filter (fun e => id e = custom_design_css) (all_elements d).

(** A run of [updateCustomCSS] calls, first text first. *)
Definition apply_all (xs : list jsstring) (d : document) : document :=
  foldl (fun d css => updateCustomCSS css d) d xs.

(** ** The remote adapters *)

(** Modelled from the spec: the settings store keeps one document per key,
    and an upsert that is accepted replaces the document under its key
    (last write wins). The value kept is the serialised one. *)
Definition stored_of (r : upsert_row) : stored :=
  Stored (toJSON (u_setting_value r)) (u_updated_at r).

Section Handlers.

Variable B : backend.

Definition new_Date : M N :=
  fun w => (Return (clock B (ticks w)), tick w).

Definition Date_now : M N := new_Date.

Definition supabase_select (keys : list string) : M response :=
  fun w => (Return (select_response B), log_call (CSelect keys) w).

(** [upsert(row)]: the call is issued, and unless the store refuses it the
    table takes the row. *)
Definition supabase_upsert (r : upsert_row) : M (option exn) :=
  fun w =>
    let w1 := log_call (CUpsert r) w in
    match upsert_error B r with
    | Some e => (Return (Some e), w1)
    | None =>
        (Return None,
         set_server_settings
           (<[u_setting_key r := stored_of r]> (server_settings w1)) w1)
    end.

(** Modelled from the spec: a fetch by keys returns the documents stored
    under the keys asked for, each once; their order is the store's. *)
Definition stored_rows (t : gmap string stored) (keys : list string)
  : list row :=
  omap (fun k => (fun st => Row k (st_value st)) <$> t !! k) keys.

Definition reports (t : gmap string stored) (r : response) : Prop :=
  error r = None
  /\ exists rows,
       data r = Some rows
       /\ rows ≡ₚ stored_rows t ["design_settings"; "general_settings"].

Definition storage_upload (bucket : string) (path : jsstring) (f : File)
  : M (option exn) :=
  fun w => (Return (upload_error B path), log_call (CUpload bucket path f) w).

Definition storage_getPublicUrl (bucket : string) (path : jsstring)
  : M jsstring :=
  fun w => (Return (publicUrl B path), log_call (CGetPublicUrl bucket path) w).

(** ** fetchDesignSettings *)

(** [v.k] for a fetched value and one of the two names read from it,
    which no built-in prototype defines: reading a property of [null]
    throws, any other value that is not an object has no such property. *)
Definition json_get (v : json) (k : string) : outcome jsval :=
  match v with
  | JsonNull =>
      Throw (TypeError "Cannot read properties of null")
  | JsonObj o => Return (get o k)
  | _ => Return JUndefined
  end.

(** The body of the [forEach] callback, on the object [settings]: the
    object as the callback leaves it, and the exception it ends with, if
    any. *)
Definition merge_row (settings : object) (setting : row)
  : object * option exn :=
  if decide (setting_key setting = "design_settings") then
    (Object_assign settings (own_props (setting_value setting)), None)
  else if decide (setting_key setting = "general_settings") then
    let generalSettings := setting_value setting in
    match json_get generalSettings "server_name" with
    | Throw e => (settings, Some e)
    | Return server_name =>
        let settings := obj_set "server_name" server_name settings in
        match json_get generalSettings "welcome_message" with
        | Throw e => (settings, Some e)
        | Return welcome_message =>
            (obj_set "welcome_message" welcome_message settings, None)
        end
    end
  else (settings, None).

(** [rows.forEach(callback)]: the callbacks run in order until one throws. *)
Fixpoint forEach (rows : list row) (settings : object)
  : object * option exn :=
  match rows with
  | [] => (settings, None)
  | setting :: rest =>
      match merge_row settings setting with
      | (settings, None) => forEach rest settings
      | (settings, Some e) => (settings, Some e)
      end
  end.

(** [const settings = {}; data?.forEach(...)]: the own properties of
    [settings] when the statement ends, and the exception it ends with, if
    any. *)
Definition merge_rows (d : option (list row)) : gmap string jsval :=
  match d with
  | Some rows => own (fst (forEach rows empty_object))
  | None => ∅
  end.

Definition merge_error (d : option (list row)) : option exn :=
  match d with
  | Some rows => snd (forEach rows empty_object)
  | None => None
  end.

Definition fetchDesignSettings : M unit :=
  try_catch
    (r ← supabase_select ["design_settings"; "general_settings"];
     throw_if (error r);;
     throw_if (merge_error (data r));;
     setDesignSettings (merge_rows (data r)))
    (fun _ =>
       console_error "Error fetching design settings:";;
       toast (Toast "Error" "Failed to load design settings" true)).

(** ** saveDesignSettings *)

Definition designData (s : gmap string jsval) : gmap string jsval :=
  delete "welcome_message" (delete "server_name" s).

Definition generalData (s : gmap string jsval) : gmap string jsval :=
  <["welcome_message" := get s "welcome_message"]>
    (<["server_name" := get s "server_name"]> ∅).

(** The guard of the second upsert. *)
Definition has_general (s : gmap string jsval) : bool :=
  truthy (get s "server_name") || truthy (get s "welcome_message").

Definition saveDesignSettings : M unit :=
  setIsLoading true;;
  try_finally
    (try_catch
       (s ← gets designSettings;
        t1 ← new_Date;
        designError ← supabase_upsert
          (UpsertRow "design_settings" (designData s) (toISOString B t1));
        throw_if designError;;
        when (has_general s)
          (t2 ← new_Date;
           generalError ← supabase_upsert
             (UpsertRow "general_settings" (generalData s)
                        (toISOString B t2));
           throw_if generalError);;
        when (truthy (get s "custom_css"))
          (call_updateCustomCSS (get s "custom_css"));;
        toast (Toast "Settings Saved"
          "Design settings updated successfully. Refresh the page to see changes."
          false))
       (fun _ =>
          console_error "Error saving design settings:";;
          toast (Toast "Error" "Failed to save design settings" true)))
    (setIsLoading false).

(** The rows the two upserts of a save starting in [w] carry. *)
Definition design_upsert (w : world) : upsert_row :=
  UpsertRow "design_settings" (designData (designSettings w))
            (toISOString B (clock B (ticks w))).

Definition general_upsert (w : world) : upsert_row :=
  UpsertRow "general_settings" (generalData (designSettings w))
            (toISOString B (clock B (S (ticks w)))).

(** ** handleImageUpload *)

Definition max_size : N := 5 * 1024 * 1024.

Definition handleImageUpload (file : option File) : M unit :=
  match file with
  | None => mret tt
  | Some file =>
      if negb (startsWith (type file) (js "image/")) then
        toast (Toast "Invalid File" "Please upload an image file" true)
      else if (max_size <? size file)%N then
        toast (Toast "File Too Large"
                     "Please upload an image smaller than 5MB" true)
      else
        setUploading true;;
        try_finally
          (try_catch
             (let fileExt := pop (split 46 (name file)) in
              now ← Date_now;
              let fileName :=
                js "hero-image-" ++ numberToString now ++ js "."
                  ++ toStr fileExt in
              let filePath := js "design/" ++ fileName in
              uploadError ← storage_upload "user-avatars" filePath file;
              throw_if uploadError;;
              url ← storage_getPublicUrl "user-avatars" filePath;
              prev ← gets designSettings;
              setDesignSettings (<["hero_image_url" := JStr url]> prev);;
              toast (Toast "Image Uploaded"
                           "Hero image uploaded successfully" false))
             (fun _ =>
                console_error "Error uploading image:";;
                toast (Toast "Upload Failed" "Failed to upload image" true)))
          (setUploading false)
  end.

End Handlers.

(** ** Vocabulary of the statements *)

Definition is_design (r : row) : Prop := setting_key r = "design_settings".

(** A [general_settings] row whose value is [null]. *)
Definition null_general (r : row) : Prop :=
  setting_key r = "general_settings" /\ setting_value r = JsonNull.

#[global] Instance null_general_dec r : Decision (null_general r).
Proof. unfold null_general. apply _. Defined.

#[global] Instance is_design_dec r : Decision (is_design r).
Proof. unfold is_design. apply _. Defined.

(** The two names kept in the [general_settings] document. *)
Definition whitelisted (k : string) : Prop :=
  k = "server_name" \/ k = "welcome_message".

(** The documents sent by the upserts among a run of calls. *)
Definition upserts (cs : list call) : list (string * gmap string jsval) :=
  omap (fun c =>
          match c with
          | CUpsert r => Some (u_setting_key r, u_setting_value r)
          | _ => None
          end) cs.

(** The toast of a load that failed. *)
Definition load_failed_toast : toast_msg :=
  Toast "Error" "Failed to load design settings" true.

(** A backend that refuses nothing, and a session that has done nothing. *)
Definition accepting (r : response) : backend :=
  Backend r (fun _ => None) (fun _ => None)
          (fun path => js "https://cdn.example/" ++ path)
          (fun n => 1700000000000 + N.of_nat n)%N
          numberToString.

Definition idle : world :=
  World ∅ false false ∅ (Document [] []) [] [] [] 0.

(** ** resetToDefaults and the field editors *)

Definition defaults : gmap string jsval :=
  list_to_map
    [("primary_color", JStr (js "#339999"));
     ("secondary_color", JStr (js "#f0e68c"));
     ("accent_color", JStr (js "#00ccff"));
     ("background_color", JStr (js "#1a1a1a"));
     ("text_color", JStr (js "#f5f5dc"));
     ("font_primary", JStr (js "Orbitron"));
     ("font_secondary", JStr (js "Inter"));
     ("border_radius", JStr (js "0.5rem"));
     ("shadow_intensity", JStr (js "medium"));
     ("animation_speed", JStr (js "normal"));
     ("server_name", JStr (js "DREAMLIGHT RP"));
     ("welcome_message", JStr (js
        "Experience the ultimate GTA V roleplay in our cyberpunk-themed city. Professional staff, custom content, and endless possibilities await."));
     ("custom_css", JStr [])].

Definition resetToDefaults : M unit :=
  setDesignSettings defaults;;
  toast (Toast "Settings Reset" "Design settings reset to defaults" false).

(** The properties that have an input in the form. *)
Definition editable : list string :=
  ["server_name"; "welcome_message"; "primary_color"; "secondary_color";
   "accent_color"; "background_color"; "text_color"; "font_primary";
   "font_secondary"; "border_radius"; "shadow_intensity"; "animation_speed";
   "custom_css"].

(** The [onChange] of the input bound to property [k], one of [editable]:
    [setDesignSettings(prev => ({ ...prev, k: e.target.value }))]. *)
Definition onChange (k : string) (value : jsstring) : M unit :=
  prev ← gets designSettings;
  setDesignSettings (<[k := JStr value]> prev).

(** ** More vocabulary *)

(** The path an upload started at time [now] gives a file called [name]:
    the three template and [split] lines of [handleImageUpload]. *)
Definition filePath (now : N) (name : jsstring) : jsstring :=
  let fileExt := pop (split 46 name) in
  let fileName :=
    js "hero-image-" ++ numberToString now ++ js "." ++ toStr fileExt in
  js "design/" ++ fileName.

(** The elements of a list that are not style overrides. *)
Definition others (l : list element) : list element :=
  filter (fun e => id e <> custom_design_css) l.

(** A document as the table holds it: no property is [undefined]. *)
Definition is_json (o : gmap string jsval) : Prop :=
  forall k, o !! k <> Some JUndefined.

#[global] Instance whitelisted_dec k : Decision (whitelisted k).
Proof. unfold whitelisted. apply _. Defined.

(** The two toasts a save can end with. *)
Definition saved_toast : toast_msg :=
  Toast "Settings Saved"
    "Design settings updated successfully. Refresh the page to see changes."
    false.

Definition save_failed_toast : toast_msg :=
  Toast "Error" "Failed to save design settings" true.

(** The two toasts an upload that reached the store can end with. *)
Definition uploaded_toast : toast_msg :=
  Toast "Image Uploaded" "Hero image uploaded successfully" false.

Definition upload_failed_toast : toast_msg :=
  Toast "Upload Failed" "Failed to upload image" true.

(** Backends that refuse the upserts under one key, or every upload. *)
Definition refusing_upsert (key : string) : backend :=
  Backend (Response None None)
          (fun u => if decide (u_setting_key u = key)
                    then Some (PostgrestError "refused") else None)
          (fun _ => None)
          (fun path => js "https://cdn.example/" ++ path)
          (fun n => 1700000000000 + N.of_nat n)%N
          numberToString.

Definition refusing_upload : backend :=
  Backend (Response None None) (fun _ => None)
          (fun _ => Some (StorageError "refused"))
          (fun path => js "https://cdn.example/" ++ path)
          (fun n => 1700000000000 + N.of_nat n)%N
          numberToString.

(** * Properties *)

(** ** The style override *)

Section Overrides.

Local Abbreviation is_override := (fun e : element => id e = custom_design_css).

Lemma has_id_true e : has_id custom_design_css e = true <-> is_override e.
Proof. unfold has_id. apply bool_decide_eq_true. Qed.

Lemma has_id_false e : has_id custom_design_css e = false <-> ~ is_override e.
Proof. unfold has_id. apply bool_decide_eq_false. Qed.

Lemma filter_absent (l : list element) :
  existsb (has_id custom_design_css) l = false ->
  filter is_override l = [] /\ remove_first custom_design_css l = l.
Proof.
  induction l as [|e l IH]; simpl; [done|].
  intros H. apply orb_false_iff in H as [He Hl].
  destruct (IH Hl) as [IH1 IH2]. rewrite He.
  apply has_id_false in He.
  rewrite filter_cons_False by done. by rewrite IH1, IH2.
Qed.

Lemma filter_remove_first (l : list element) :
  existsb (has_id custom_design_css) l = true ->
  S (length (filter is_override (remove_first custom_design_css l)))
  = length (filter is_override l).
Proof.
  induction l as [|e l IH]; simpl; [done|].
  destruct (has_id custom_design_css e) eqn:He; simpl.
  - intros _. apply has_id_true in He. by rewrite filter_cons_True.
  - intros Hl. apply has_id_false in He.
    rewrite !filter_cons_False by done. by apply IH.
Qed.

Lemma find_existsb (l : list element) :
  find (has_id custom_design_css) l = None
  <-> existsb (has_id custom_design_css) l = false.
Proof.
  induction l as [|e l IH]; simpl; [done|].
  destruct (has_id custom_design_css e); simpl; [split; discriminate|done].
Qed.

Lemma overrides_split d :
  overrides d = filter is_override (head d) ++ filter is_override (body d).
Proof. unfold overrides, all_elements. apply filter_app. Qed.

(** No element is found exactly when no override is active. *)
Lemma getElementById_None d :
  getElementById d custom_design_css = None <-> overrides d = [].
Proof.
  unfold getElementById. rewrite find_existsb, overrides_split.
  unfold all_elements. rewrite existsb_app, orb_false_iff. split.
  - intros [H1 H2]. apply filter_absent in H1 as [-> _].
    by apply filter_absent in H2 as [-> _].
  - intros H. apply app_eq_nil in H as [H1 H2].
    split; apply not_true_iff_false; intros Hex.
    + apply filter_remove_first in Hex. by rewrite H1 in Hex.
    + apply filter_remove_first in Hex. by rewrite H2 in Hex.
Qed.

(** Removing the element found takes exactly one override away. *)
Lemma overrides_remove_found d :
  overrides d <> [] ->
  S (length (overrides (remove_found custom_design_css d)))
  = length (overrides d).
Proof.
  intros Hne. unfold remove_found.
  destruct (existsb (has_id custom_design_css) (head d)) eqn:Hh.
  - rewrite !overrides_split; simpl. rewrite !length_app.
    rewrite <- (filter_remove_first _ Hh). done.
  - destruct (existsb (has_id custom_design_css) (body d)) eqn:Hb.
    + rewrite !overrides_split; simpl. rewrite !length_app.
      rewrite <- (filter_remove_first _ Hb). lia.
    + exfalso. apply Hne. rewrite overrides_split.
      apply filter_absent in Hh as [-> _].
      by apply filter_absent in Hb as [-> _].
Qed.

Lemma overrides_appendChild e d :
  is_override e ->
  overrides (head_appendChild e d)
  = filter is_override (head d) ++ e :: filter is_override (body d).
Proof.
  intros He. rewrite overrides_split; simpl.
  rewrite filter_app, filter_cons_True by done.
  by rewrite filter_nil, <- app_assoc.
Qed.

Lemma overrides_remove_existing d :
  length (overrides (remove_existing d)) = pred (length (overrides d)).
Proof.
  unfold remove_existing.
  destruct (getElementById d custom_design_css) eqn:Hg.
  - assert (overrides d <> []) as Hne.
    { intros H. apply getElementById_None in H. congruence. }
    by rewrite <- (overrides_remove_found d Hne).
  - apply getElementById_None in Hg. by rewrite Hg.
Qed.

Lemma updateCustomCSS_unfold css d :
  updateCustomCSS css d =
  if truthy (JStr (trim css))
  then head_appendChild (Element "style" custom_design_css css)
                        (remove_existing d)
  else remove_existing d.
Proof. reflexivity. Qed.

Lemma truthy_trim css : truthy (JStr (trim css)) = true <-> trim css <> [].
Proof. simpl. by destruct (trim css). Qed.

(** With at most one override before, an [updateCustomCSS] of a text that
    does not trim to nothing leaves that text as the only override. *)
Lemma updateCustomCSS_installs css d :
  length (overrides d) <= 1 ->
  trim css <> [] ->
  overrides (updateCustomCSS css d) = [Element "style" custom_design_css css].
Proof.
  intros Hd Hx. rewrite updateCustomCSS_unfold.
  apply truthy_trim in Hx. rewrite Hx.
  rewrite overrides_appendChild by done.
  pose proof (overrides_remove_existing d) as Hlen.
  assert (overrides (remove_existing d) = []) as Hnil.
  { apply length_zero_iff_nil. lia. }
  rewrite overrides_split in Hnil. apply app_eq_nil in Hnil as [-> ->].
  done.
Qed.

Lemma updateCustomCSS_clears css d :
  length (overrides d) <= 1 ->
  trim css = [] ->
  overrides (updateCustomCSS css d) = [].
Proof.
  intros Hd Hx. rewrite updateCustomCSS_unfold.
  destruct (truthy (JStr (trim css))) eqn:Ht.
  { apply truthy_trim in Ht. done. }
  apply length_zero_iff_nil.
  rewrite overrides_remove_existing. lia.
Qed.

Lemma updateCustomCSS_at_most_one css d :
  length (overrides d) <= 1 ->
  length (overrides (updateCustomCSS css d)) <= 1.
Proof.
  intros Hd. destruct (decide (trim css = [])) as [Hx|Hx].
  - rewrite updateCustomCSS_clears by done. simpl; lia.
  - rewrite updateCustomCSS_installs by done. simpl; lia.
Qed.

Lemma apply_all_at_most_one xs d :
  length (overrides d) <= 1 ->
  length (overrides (apply_all xs d)) <= 1.
Proof.
  revert d. induction xs as [|x xs IH]; intros d Hd; simpl; [done|].
  apply IH. by apply updateCustomCSS_at_most_one.
Qed.

(** C5. In a document with at most one style override, [updateCustomCSS x]
    for a text [x] that does not trim to nothing leaves exactly one
    override: a [<style>] with the fixed id and content [x]. The same holds
    when it follows another call with any text [y] (the latest text is the
    one installed), and after any run of calls at most one override is
    active. *)
Theorem updateCustomCSS_single_override
    (d : document) (x y : jsstring) (xs : list jsstring) :
  length (overrides d) <= 1 ->
  trim x <> [] ->
  overrides (updateCustomCSS x d) = [Element "style" custom_design_css x]
  /\ overrides (updateCustomCSS x (updateCustomCSS x d))
     = [Element "style" custom_design_css x]
  /\ overrides (updateCustomCSS x (updateCustomCSS y d))
     = [Element "style" custom_design_css x]
  /\ length (overrides (apply_all xs d)) <= 1.
Proof.
  intros Hd Hx. repeat split.
  - by apply updateCustomCSS_installs.
  - apply updateCustomCSS_installs; [|done].
    by apply updateCustomCSS_at_most_one.
  - apply updateCustomCSS_installs; [|done].
    by apply updateCustomCSS_at_most_one.
  - by apply apply_all_at_most_one.
Qed.

Lemma updateCustomCSS_single_override_witness :
  let d := Document [Element "style" custom_design_css (js "a{}")]
                    [Element "div" "root" []] in
  let x := js "body{color:red}" in
  overrides (updateCustomCSS x d) = [Element "style" custom_design_css x]
  /\ overrides (updateCustomCSS x (updateCustomCSS x d))
     = [Element "style" custom_design_css x]
  /\ overrides (updateCustomCSS x (updateCustomCSS (js "p{}") d))
     = [Element "style" custom_design_css x]
  /\ length (overrides (apply_all [js "p{}"; []; x] d)) <= 1.
Proof.
  intros d x.
  apply (updateCustomCSS_single_override d x (js "p{}") [js "p{}"; []; x]).
  - vm_compute. lia.
  - vm_compute. discriminate.
Defined.

(** C6. In a document with at most one style override, [updateCustomCSS]
    with a text that trims to nothing (the empty string, or white space
    only) leaves no override and appends nothing to [<head>]; so no
    override is left when such a call follows a call with any text [x]. *)
Theorem updateCustomCSS_blank_clears (d : document) (ws x : jsstring) :
  length (overrides d) <= 1 ->
  trim ws = [] ->
  overrides (updateCustomCSS ws d) = []
  /\ updateCustomCSS ws d = remove_existing d
  /\ overrides (updateCustomCSS ws (updateCustomCSS x d)) = []
  /\ overrides (updateCustomCSS [] (updateCustomCSS x d)) = [].
Proof.
  intros Hd Hws. repeat split.
  - by apply updateCustomCSS_clears.
  - rewrite updateCustomCSS_unfold.
    destruct (truthy (JStr (trim ws))) eqn:Ht; [|done].
    by apply truthy_trim in Ht.
  - apply updateCustomCSS_clears; [|done].
    by apply updateCustomCSS_at_most_one.
  - apply updateCustomCSS_clears; [|done].
    by apply updateCustomCSS_at_most_one.
Qed.

Lemma updateCustomCSS_blank_clears_witness :
  let d := Document [Element "style" custom_design_css (js "a{}")] [] in
  let x := js "body{color:red}" in
  let ws := js "   " in
  overrides (updateCustomCSS ws d) = []
  /\ updateCustomCSS ws d = remove_existing d
  /\ overrides (updateCustomCSS ws (updateCustomCSS x d)) = []
  /\ overrides (updateCustomCSS [] (updateCustomCSS x d)) = [].
Proof.
  intros d x ws. apply (updateCustomCSS_blank_clears d ws x).
  - vm_compute. lia.
  - vm_compute. reflexivity.
Defined.

End Overrides.

(** ** Running the handlers *)

Ltac run :=
  cbv [saveDesignSettings fetchDesignSettings handleImageUpload
       try_finally try_catch when throw_if throw modify gets
       mbind mret M_bind M_ret
       supabase_upsert supabase_select storage_upload storage_getPublicUrl
       new_Date Date_now call_updateCustomCSS
       setIsLoading setDesignSettings setUploading toast console_error];
  simpl.

Section Save.

Variable B : backend.

Lemma save_page_unchanged (w : world) :
  truthy (get (designSettings w) "custom_css") = false ->
  page (snd (saveDesignSettings B w)) = page w.
Proof.
  intros Hc. run. rewrite Hc.
  destruct (upsert_error B _); simpl; [done|].
  destruct (has_general (designSettings w)); simpl; [|done].
  by destruct (upsert_error B _).
Qed.

(** When [custom_css] is a non-empty string and no upsert is refused, the
    save hands the text to [updateCustomCSS]. *)
Lemma save_page_updated (w : world) (css : jsstring) :
  get (designSettings w) "custom_css" = JStr css ->
  css <> [] ->
  (forall r, upsert_error B r = None) ->
  page (snd (saveDesignSettings B w)) = updateCustomCSS css (page w).
Proof.
  intros Hc Hne Hok. run. rewrite Hc, !Hok. simpl.
  destruct (has_general (designSettings w)); simpl;
    rewrite ?Hok; simpl; by destruct css.
Qed.

(** C10. [saveDesignSettings] leaves the document as it was when the
    [custom_css] of the settings object is not truthy (absent, undefined or
    the empty string): the style overrides installed before the save are
    the ones in place after it, none is removed. *)
Theorem save_keeps_override_without_css (w : world) :
  truthy (get (designSettings w) "custom_css") = false ->
  page (snd (saveDesignSettings B w)) = page w
  /\ overrides (page (snd (saveDesignSettings B w))) = overrides (page w).
Proof.
  intros Hc. rewrite save_page_unchanged by done. done.
Qed.

End Save.

(** ** Merging the fetched rows *)

Section Writes.

Implicit Types (o t : object) (k j : string) (v : jsval).

Lemma own_obj_set k v o j :
  k <> "__proto__" ->
  own (obj_set k v o) !! j = if decide (k = j) then Some v else own o !! j.
Proof.
  intros Hk. unfold obj_set. rewrite decide_False by done. simpl.
  apply lookup_insert.
Qed.

Lemma null_proto_obj_set k v o :
  k <> "__proto__" -> null_proto (obj_set k v o) = null_proto o.
Proof. intros Hk. unfold obj_set. by rewrite decide_False. Qed.

Lemma own_obj_set_ne k v o j :
  k <> j -> own (obj_set k v o) !! j = own o !! j.
Proof.
  intros Hkj. unfold obj_set. case_decide as Hk.
  - destruct (own o !! k); simpl; [by rewrite lookup_insert_ne|].
    destruct (null_proto o); simpl; [by rewrite lookup_insert_ne|].
    by destruct v.
  - simpl. by rewrite lookup_insert_ne.
Qed.

(** What a write to [__proto__] does is decided by the prototype and by
    the own [__proto__] of the object written to. *)
Lemma obj_set_proto_congr v o t :
  null_proto o = null_proto t ->
  own o !! "__proto__" = own t !! "__proto__" ->
  null_proto (obj_set "__proto__" v o) = null_proto (obj_set "__proto__" v t)
  /\ own (obj_set "__proto__" v o) !! "__proto__"
     = own (obj_set "__proto__" v t) !! "__proto__".
Proof.
  intros Hf Ho. unfold obj_set. rewrite decide_True by done.
  rewrite <- Ho, <- Hf.
  destruct (own o !! "__proto__") eqn:E; simpl.
  - by rewrite !lookup_insert_eq.
  - destruct (null_proto o) eqn:F; simpl; [by rewrite !lookup_insert_eq|].
    destruct v; simpl; split; congruence.
Qed.

Lemma obj_set_comm k j v1 v2 o :
  k <> j -> obj_set k v1 (obj_set j v2 o) = obj_set j v2 (obj_set k v1 o).
Proof.
  intros Hkj. destruct o as [m f]. unfold obj_set; simpl.
  destruct (decide (k = "__proto__")) as [->|Hk];
    destruct (decide (j = "__proto__")) as [->|Hj]; simpl; try done.
  - rewrite lookup_insert_ne by done.
    destruct (m !! "__proto__"); simpl;
      [by rewrite insert_insert_ne|].
    destruct f; simpl; [by rewrite insert_insert_ne|].
    by destruct v1.
  - rewrite lookup_insert_ne by done.
    destruct (m !! "__proto__"); simpl;
      [by rewrite insert_insert_ne|].
    destruct f; simpl; [by rewrite insert_insert_ne|].
    by destruct v2.
  - by rewrite insert_insert_ne.
Qed.

Lemma Object_assign_empty t : Object_assign t ∅ = t.
Proof. unfold Object_assign. apply map_fold_empty. Qed.

(** [Object.assign] one property at a time: the order in which the source
    lists its properties does not matter. *)
Lemma Object_assign_insert t (source : gmap string jsval) k v :
  source !! k = None ->
  Object_assign t (<[k := v]> source) = obj_set k v (Object_assign t source).
Proof.
  intros Hk. unfold Object_assign. apply map_fold_insert_L; [|done].
  intros j1 j2 z1 z2 y Hj _ _. by apply obj_set_comm.
Qed.

Lemma own_Object_assign t (source : gmap string jsval) k :
  k <> "__proto__" ->
  own (Object_assign t source) !! k
  = match source !! k with Some v => Some v | None => own t !! k end.
Proof.
  intros Hk. induction source as [|j x m Hj IH] using map_ind.
  - by rewrite Object_assign_empty, lookup_empty.
  - rewrite Object_assign_insert by done.
    destruct (decide (j = k)) as [->|Hjk].
    + rewrite own_obj_set by done. rewrite decide_True by done.
      by rewrite lookup_insert_eq.
    + rewrite own_obj_set_ne by done. by rewrite IH, lookup_insert_ne.
Qed.

(** The prototype and the own [__proto__] after [Object.assign] are those
    after the one write of the source's [__proto__], if it has one. *)
Lemma Object_assign_proto t (source : gmap string jsval) :
  let t' := match source !! "__proto__" with
            | Some v => obj_set "__proto__" v t
            | None => t
            end in
  null_proto (Object_assign t source) = null_proto t'
  /\ own (Object_assign t source) !! "__proto__" = own t' !! "__proto__".
Proof.
  induction source as [|j x m Hj IH] using map_ind; simpl.
  - by rewrite Object_assign_empty, lookup_empty.
  - rewrite Object_assign_insert by done.
    destruct (decide (j = "__proto__")) as [->|Hjp].
    + rewrite lookup_insert_eq. rewrite Hj in IH. simpl in IH.
      destruct IH as [IH1 IH2]. by apply obj_set_proto_congr.
    + rewrite lookup_insert_ne by done. simpl in IH.
      by rewrite null_proto_obj_set, own_obj_set_ne.
Qed.

(** From the empty object, [Object.assign] copies every property but
    [__proto__]. *)
Lemma own_Object_assign_empty (source : gmap string jsval) k :
  own (Object_assign empty_object source) !! k
  = if decide (k = "__proto__") then None else source !! k.
Proof.
  case_decide as Hk.
  - subst. destruct (Object_assign_proto empty_object source) as [_ ->].
    destruct (source !! "__proto__") as [v|]; [|done].
    unfold obj_set. simpl. by destruct v.
  - rewrite own_Object_assign by done. simpl. rewrite lookup_empty.
    by destruct (source !! k).
Qed.

End Writes.

Section Merge.

Implicit Types (settings : object) (d g : gmap string jsval) (k : string).

Lemma merge_row_design settings d :
  merge_row settings (Row "design_settings" d)
  = (Object_assign settings d, None).
Proof. reflexivity. Qed.

Lemma merge_row_design_json settings (v : json) :
  merge_row settings (MkRow "design_settings" v)
  = (Object_assign settings (own_props v), None).
Proof. reflexivity. Qed.

Lemma merge_row_general settings g :
  merge_row settings (Row "general_settings" g)
  = (obj_set "welcome_message" (get g "welcome_message")
       (obj_set "server_name" (get g "server_name") settings), None).
Proof. reflexivity. Qed.

Lemma lookup_general_writes settings (sn wm : jsval) k :
  own (obj_set "welcome_message" wm (obj_set "server_name" sn settings)) !! k
  = if decide (k = "welcome_message") then Some wm
    else if decide (k = "server_name") then Some sn
    else own settings !! k.
Proof.
  rewrite !own_obj_set by done.
  repeat case_decide; subst; done.
Qed.

(** Rows of any other key leave the object alone; the two keys asked for are
    the only ones the select can return. *)
Lemma merge_row_other settings r :
  setting_key r <> "design_settings" ->
  setting_key r <> "general_settings" ->
  merge_row settings r = (settings, None).
Proof.
  intros H1 H2. unfold merge_row. by rewrite !decide_False by done.
Qed.

(** A design row never throws; a general row throws exactly on [null], and
    then leaves the object as it was. *)
Lemma merge_row_throws settings r :
  (null_general r ->
     merge_row settings r
     = (settings, Some (TypeError "Cannot read properties of null")))
  /\ (~ null_general r -> snd (merge_row settings r) = None).
Proof.
  destruct r as [key v]. unfold null_general, merge_row; simpl. split.
  - intros [-> ->]. done.
  - intros Hn. repeat case_decide; try done.
    destruct v; try done. exfalso. by apply Hn.
Qed.

Lemma forEach_returns (rows : list row) settings :
  Forall (fun r => ~ null_general r) rows ->
  snd (forEach rows settings) = None.
Proof.
  intros H. revert settings.
  induction H as [|r rows Hr _ IH]; intros settings; simpl; [done|].
  pose proof (proj2 (merge_row_throws settings r) Hr) as Hs.
  destruct (merge_row settings r) as [s' [e|]]; [done|]. apply IH.
Qed.

Lemma forEach_throws (rows : list row) settings :
  Exists null_general rows ->
  snd (forEach rows settings)
  = Some (TypeError "Cannot read properties of null").
Proof.
  intros H. revert settings.
  induction H as [r rows Hr|r rows _ IH]; intros settings; simpl.
  - by rewrite (proj1 (merge_row_throws settings r) Hr).
  - destruct (decide (null_general r)) as [Hr|Hr].
    + by rewrite (proj1 (merge_row_throws settings r) Hr).
    + pose proof (proj2 (merge_row_throws settings r) Hr) as Hs.
      destruct (merge_row settings r) as [s' [e|]]; [done|]. apply IH.
Qed.

Lemma Row_not_null key d : ~ null_general (Row key d).
Proof. by intros [_ ?]. Qed.

(** Two objects under construction that differ at most in [server_name]
    and [welcome_message]. *)
Local Abbreviation agree := (fun s1 s2 : object =>
  null_proto s1 = null_proto s2
  /\ forall k, ~ whitelisted k -> own s1 !! k = own s2 !! k).

Lemma Object_assign_agree (s1 s2 : object) (source : gmap string jsval) :
  agree s1 s2 -> agree (Object_assign s1 source) (Object_assign s2 source).
Proof.
  intros [Hf Ho].
  assert (own s1 !! "__proto__" = own s2 !! "__proto__") as Hp.
  { apply Ho. intros [? | ?]; discriminate. }
  destruct (Object_assign_proto s1 source) as [F1 P1].
  destruct (Object_assign_proto s2 source) as [F2 P2].
  assert (null_proto (Object_assign s1 source)
          = null_proto (Object_assign s2 source)
          /\ own (Object_assign s1 source) !! "__proto__"
             = own (Object_assign s2 source) !! "__proto__") as [HF HP].
  { rewrite F1, F2, P1, P2.
    destruct (source !! "__proto__"); [|done].
    by apply obj_set_proto_congr. }
  split; [done|]. intros k Hk.
  destruct (decide (k = "__proto__")) as [->|Hkp]; [done|].
  rewrite !own_Object_assign by done. rewrite (Ho k Hk). done.
Qed.

Lemma general_writes_agree (s1 s2 : object) (sn wm : jsval) :
  agree s1 s2 ->
  agree (obj_set "welcome_message" wm (obj_set "server_name" sn s1)) s2.
Proof.
  intros [Hf Ho]. split.
  - by rewrite !null_proto_obj_set.
  - intros k Hk. rewrite lookup_general_writes. unfold whitelisted in Hk.
    repeat case_decide; subst; try tauto. by apply Ho.
Qed.

(** Outside the two whitelisted names, the object a [forEach] that does
    not throw leaves is what the design rows alone give, whatever else was
    fetched and in whatever order. *)
Lemma forEach_design_only (rows : list row) (s1 s2 : object) :
  agree s1 s2 ->
  snd (forEach rows s1) = None ->
  snd (forEach (filter is_design rows) s2) = None
  /\ agree (fst (forEach rows s1)) (fst (forEach (filter is_design rows) s2)).
Proof.
  revert s1 s2. induction rows as [|[key v] rows IH]; intros s1 s2 Hs Hn;
    [done|].
  destruct (decide (key = "design_settings")) as [->|Hk].
  - rewrite filter_cons_True by done. cbn [forEach] in *.
    rewrite !merge_row_design_json in *.
    apply IH; [|done]. by apply Object_assign_agree.
  - rewrite filter_cons_False by done. cbn [forEach] in Hn |- *.
    destruct (decide (key = "general_settings")) as [->|Hg].
    + unfold merge_row in Hn |- *. simpl in Hn |- *.
      destruct (json_get v "server_name") as [sn|e]; [|done].
      destruct (json_get v "welcome_message") as [wm|e]; [|done].
      apply IH; [|done]. by apply general_writes_agree.
    + rewrite merge_row_other in Hn |- * by done. by apply IH.
Qed.

(** The two orders in which the two documents can arrive. *)
Lemma two_rows_orders (a b : row) (rows : list row) :
  rows ≡ₚ [a; b] -> rows = [a; b] \/ rows = [b; a].
Proof.
  intros H. symmetry in H. by apply Permutation_length_2_inv in H.
Qed.

Lemma lookup_merge_design_general d g k :
  merge_rows (Some [Row "design_settings" d; Row "general_settings" g]) !! k
  = if decide (k = "welcome_message") then Some (get g "welcome_message")
    else if decide (k = "server_name") then Some (get g "server_name")
    else if decide (k = "__proto__") then None
    else d !! k.
Proof.
  unfold merge_rows. cbn [forEach]. rewrite merge_row_design.
  rewrite merge_row_general. cbn [fst].
  by rewrite lookup_general_writes, own_Object_assign_empty.
Qed.

Lemma lookup_merge_general_design d g k :
  merge_rows (Some [Row "general_settings" g; Row "design_settings" d]) !! k
  = if decide (k = "__proto__") then None
    else match d !! k with
         | Some v => Some v
         | None =>
             if decide (k = "welcome_message")
             then Some (get g "welcome_message")
             else if decide (k = "server_name")
             then Some (get g "server_name")
             else None
         end.
Proof.
  unfold merge_rows. cbn [forEach]. rewrite merge_row_general.
  rewrite merge_row_design. cbn [fst].
  set (t := obj_set "welcome_message" _ _).
  case_decide as Hk.
  - subst. destruct (Object_assign_proto t d) as [_ ->].
    assert (own t !! "__proto__" = None) as Ht.
    { subst t. by rewrite lookup_general_writes. }
    destruct (d !! "__proto__") as [v|]; [|done].
    unfold obj_set. rewrite decide_True by done. rewrite Ht.
    assert (null_proto t = false) as -> by done. by destruct v.
  - rewrite own_Object_assign by done. subst t.
    rewrite lookup_general_writes. by destruct (d !! k).
Qed.

Lemma merge_error_two_rows (rows : list row) d g :
  rows ≡ₚ [Row "design_settings" d; Row "general_settings" g] ->
  merge_error (Some rows) = None.
Proof.
  intros Hp. by apply two_rows_orders in Hp as [-> | ->].
Qed.

(** C2, amended. With one [design_settings] and one [general_settings] row
    fetched, [server_name] and [welcome_message] of the merged object are
    those of the general document when the general row comes after the
    design row, and also, in either order, when the design document has no
    property of that name; when the design row comes last and has such a
    property, the design document's value is the one kept. *)
Theorem merge_whitelisted_last_writer d g k :
  whitelisted k ->
  get (merge_rows (Some [Row "design_settings" d; Row "general_settings" g])) k
  = get g k
  /\ get (merge_rows (Some [Row "general_settings" g; Row "design_settings" d])) k
     = match d !! k with Some v => v | None => get g k end
  /\ (forall rows,
        rows ≡ₚ [Row "design_settings" d; Row "general_settings" g] ->
        d !! k = None ->
        get (merge_rows (Some rows)) k = get g k).
Proof.
  intros Hk.
  assert (get (merge_rows
            (Some [Row "design_settings" d; Row "general_settings" g])) k
          = get g k) as H1.
  { unfold get at 1. rewrite lookup_merge_design_general.
    destruct Hk as [-> | ->]; by simplify_eq/=. }
  assert (get (merge_rows
            (Some [Row "general_settings" g; Row "design_settings" d])) k
          = match d !! k with Some v => v | None => get g k end) as H2.
  { unfold get at 1. rewrite lookup_merge_general_design.
    rewrite decide_False by (destruct Hk as [-> | ->]; discriminate).
    destruct (d !! k); [done|]. destruct Hk as [-> | ->]; by simplify_eq/=. }
  repeat split; [done..|].
  intros rows Hp Hd. apply two_rows_orders in Hp as [-> | ->]; [done|].
  by rewrite H2, Hd.
Qed.

End Merge.

(** ** What a save sends and stores *)

Section SaveStore.

Variable B : backend.

(** The design upsert is the first call of every save. *)
Lemma save_calls_design_first (w : world) :
  exists rest,
    calls (snd (saveDesignSettings B w))
    = calls w ++ CUpsert (design_upsert B w) :: rest.
Proof.
  run. fold (design_upsert B w).
  destruct (upsert_error B (design_upsert B w)); simpl; [by exists []|].
  destruct (has_general (designSettings w)); simpl.
  - fold (general_upsert B w). exists [CUpsert (general_upsert B w)].
    destruct (upsert_error B (general_upsert B w)); simpl;
      [by rewrite <- app_assoc|].
    destruct (truthy (get (designSettings w) "custom_css")); simpl;
      [destruct (get (designSettings w) "custom_css")|];
      simpl; by rewrite <- app_assoc.
  - exists [].
    destruct (truthy (get (designSettings w) "custom_css")); simpl;
      [destruct (get (designSettings w) "custom_css")|]; simpl; done.
Qed.

(** Without a truthy [server_name] or [welcome_message] the design upsert
    is the only call, and the only row of the table that can change is the
    design one. *)
Lemma save_without_general (w : world) :
  has_general (designSettings w) = false ->
  calls (snd (saveDesignSettings B w)) = calls w ++ [CUpsert (design_upsert B w)]
  /\ forall key, key <> "design_settings" ->
       server_settings (snd (saveDesignSettings B w)) !! key
       = server_settings w !! key.
Proof.
  intros Hg. run. rewrite Hg. fold (design_upsert B w).
  destruct (upsert_error B (design_upsert B w)); simpl; [done|].
  destruct (truthy (get (designSettings w) "custom_css")); simpl;
    [destruct (get (designSettings w) "custom_css")|]; simpl;
    (split; [done|]); intros key Hk; by rewrite lookup_insert_ne.
Qed.

(** When no upsert is refused: the calls issued and the table after. *)
Lemma save_accepted (w : world) :
  (forall r, upsert_error B r = None) ->
  calls (snd (saveDesignSettings B w))
  = calls w ++ CUpsert (design_upsert B w)
      :: (if has_general (designSettings w)
          then [CUpsert (general_upsert B w)] else [])
  /\ server_settings (snd (saveDesignSettings B w))
     = (if has_general (designSettings w)
        then <["general_settings" := stored_of (general_upsert B w)]>
               (<["design_settings" := stored_of (design_upsert B w)]>
                  (server_settings w))
        else <["design_settings" := stored_of (design_upsert B w)]>
               (server_settings w)).
Proof.
  intros Hok. run. rewrite !Hok. simpl.
  destruct (has_general (designSettings w)); simpl; rewrite ?Hok; simpl;
    (destruct (truthy (get (designSettings w) "custom_css")); simpl;
      [destruct (get (designSettings w) "custom_css")|]); simpl;
    rewrite <- ?app_assoc; done.
Qed.

End SaveStore.

(** ** Saving *)

Section SaveClaims.

Variable B : backend.

Lemma has_general_false (s : gmap string jsval) :
  has_general s = false
  <-> truthy (get s "server_name") = false
      /\ truthy (get s "welcome_message") = false.
Proof. unfold has_general. apply orb_false_iff. Qed.

(** C4. When neither [server_name] nor [welcome_message] of the settings
    object is truthy (each is empty or absent), the only call a save issues
    is the upsert under [design_settings]: none goes out under
    [general_settings] and the row stored under that key is the one that
    was there. The design upsert itself is the first call of every save. *)
Theorem save_skips_general_upsert (w : world) :
  truthy (get (designSettings w) "server_name") = false ->
  truthy (get (designSettings w) "welcome_message") = false ->
  calls (snd (saveDesignSettings B w)) = calls w ++ [CUpsert (design_upsert B w)]
  /\ u_setting_key (design_upsert B w) = "design_settings"
  /\ server_settings (snd (saveDesignSettings B w)) !! "general_settings"
     = server_settings w !! "general_settings"
  /\ (forall w0, exists rest,
        calls (snd (saveDesignSettings B w0))
        = calls w0 ++ CUpsert (design_upsert B w0) :: rest).
Proof.
  intros H1 H2.
  assert (has_general (designSettings w) = false) as Hg
    by by apply has_general_false.
  destruct (save_without_general B w Hg) as [Hc Ht].
  repeat split; [done| |apply save_calls_design_first].
  by apply Ht.
Qed.

Lemma lookup_designData (s : gmap string jsval) k :
  designData s !! k
  = if decide (k = "welcome_message") then None
    else if decide (k = "server_name") then None
    else s !! k.
Proof. unfold designData. repeat case_decide; subst; by simplify_map_eq. Qed.

Lemma lookup_generalData (s : gmap string jsval) k :
  generalData s !! k
  = if decide (k = "welcome_message") then Some (get s "welcome_message")
    else if decide (k = "server_name") then Some (get s "server_name")
    else None.
Proof. unfold generalData. repeat case_decide; subst; by simplify_map_eq. Qed.

(** C3, amended. The design upsert of a save carries the settings object
    without [server_name] and [welcome_message], every other property with
    its value; the general upsert carries those two names and nothing else,
    with the values read from the settings object; no name is in both. The
    general upsert is issued when one of the two values is truthy; when
    neither is, the design upsert is the only one, and the two names are
    sent in no document. *)
Theorem save_partition (w : world) :
  (forall r, upsert_error B r = None) ->
  let s := designSettings w in
  let dd := u_setting_value (design_upsert B w) in
  let gd := u_setting_value (general_upsert B w) in
  calls (snd (saveDesignSettings B w))
    = calls w ++ CUpsert (design_upsert B w)
        :: (if has_general s then [CUpsert (general_upsert B w)] else [])
  /\ dd !! "server_name" = None /\ dd !! "welcome_message" = None
  /\ (forall k, ~ whitelisted k -> dd !! k = s !! k)
  /\ (forall k, is_Some (gd !! k) <-> whitelisted k)
  /\ (forall k, whitelisted k -> gd !! k = Some (get s k))
  /\ (forall k, is_Some (dd !! k) -> is_Some (gd !! k) -> False)
  /\ (has_general s = true ->
        forall k, is_Some (s !! k) -> is_Some (dd !! k) \/ is_Some (gd !! k))
  /\ (has_general s = false ->
        forall k, is_Some (s !! k) ->
          is_Some (dd !! k) \/ (whitelisted k /\ truthy (get s k) = false)).
Proof.
  intros Hok s dd gd. subst dd gd; simpl.
  split; [by apply save_accepted|].
  split; [by rewrite lookup_designData|].
  split; [by rewrite lookup_designData|].
  split.
  { intros k Hk. rewrite lookup_designData.
    repeat case_decide; subst; try done; exfalso; apply Hk;
      unfold whitelisted; auto. }
  split.
  { intros k. rewrite lookup_generalData, is_Some_alt. unfold whitelisted.
    repeat case_decide; subst; intuition (auto; congruence). }
  split.
  { intros k [-> | ->]; by rewrite lookup_generalData. }
  split.
  { intros k. rewrite lookup_designData, lookup_generalData.
    repeat case_decide; intros [? ?] [? ?]; done. }
  split.
  { intros _ k Hs. rewrite lookup_designData, lookup_generalData.
    repeat case_decide; auto; right; by eexists. }
  intros Hg k Hs. apply has_general_false in Hg as [Hsn Hwm].
  rewrite lookup_designData. unfold whitelisted.
  repeat case_decide; subst; auto.
Qed.

End SaveClaims.

(** ** Loading *)

Lemma fetch_succeeds (B : backend) (w : world) :
  error (select_response B) = None ->
  merge_error (data (select_response B)) = None ->
  fetchDesignSettings B w
  = (Return (),
     set_designSettings (merge_rows (data (select_response B)))
       (log_call (CSelect ["design_settings"; "general_settings"]) w)).
Proof. intros He Hm. run. by rewrite He, Hm. Qed.

Lemma fetch_fails (B : backend) (w : world) e :
  error (select_response B) = Some e ->
  fetchDesignSettings B w
  = (Return (),
     push_toast (Toast "Error" "Failed to load design settings" true)
       (push_console "Error fetching design settings:"
          (log_call (CSelect ["design_settings"; "general_settings"]) w))).
Proof. intros He. run. by rewrite He. Qed.

(** The callback threw: the same catch block runs. *)
Lemma fetch_throws (B : backend) (w : world) e :
  error (select_response B) = None ->
  merge_error (data (select_response B)) = Some e ->
  fetchDesignSettings B w
  = (Return (),
     push_toast (Toast "Error" "Failed to load design settings" true)
       (push_console "Error fetching design settings:"
          (log_call (CSelect ["design_settings"; "general_settings"]) w))).
Proof. intros He Hm. run. by rewrite He, Hm. Qed.

Lemma merge_error_returns (d : option (list row)) :
  Forall (fun r => ~ null_general r) (default [] d) -> merge_error d = None.
Proof.
  destruct d as [rows|]; [|done]. simpl. apply forEach_returns.
Qed.

Lemma merge_error_throws (d : option (list row)) :
  Exists null_general (default [] d) ->
  merge_error d = Some (TypeError "Cannot read properties of null").
Proof.
  destruct d as [rows|]; simpl; [apply forEach_throws|].
  intros H. by apply Exists_nil in H.
Qed.

(** The toast of a load, by what the select returned. *)
Lemma fetch_toasts (B : backend) (w : world) :
  (error (select_response B) = None
   /\ Forall (fun r => ~ null_general r) (default [] (data (select_response B)))
   /\ toasts (snd (fetchDesignSettings B w)) = toasts w
   /\ designSettings (snd (fetchDesignSettings B w))
      = merge_rows (data (select_response B)))
  \/ ((error (select_response B) <> None
       \/ Exists null_general (default [] (data (select_response B))))
      /\ toasts (snd (fetchDesignSettings B w)) = toasts w ++ [load_failed_toast]
      /\ designSettings (snd (fetchDesignSettings B w)) = designSettings w).
Proof.
  destruct (error (select_response B)) as [e|] eqn:E.
  { right. rewrite (fetch_fails _ _ _ E). split; [by left|done]. }
  destruct (decide (Exists null_general
                      (default [] (data (select_response B))))) as [Hx|Hx].
  - right. rewrite (fetch_throws _ _ _ E (merge_error_throws _ Hx)).
    split; [by right|done].
  - left. apply not_Exists_Forall in Hx; [|apply _].
    rewrite (fetch_succeeds _ _ E (merge_error_returns _ Hx)). done.
Qed.



Lemma lookup_merge_design_alone (d : gmap string jsval) k :
  merge_rows (Some [Row "design_settings" d]) !! k
  = if decide (k = "__proto__") then None else d !! k.
Proof.
  unfold merge_rows. cbn [forEach]. rewrite merge_row_design. cbn [fst].
  apply own_Object_assign_empty.
Qed.



(** C8, amended. A [general_settings] row holding an object writes its
    [server_name] and [welcome_message] into the object being built and
    nothing else; a [design_settings] row writes each of its properties
    into it with its value, except [__proto__], which is never copied as a
    property from a document. So with one row of each, in either order, the
    merge does not throw, every property of the result other than the two
    names is the design document's, a property that only the general
    document has, such as [extra_field], is nowhere in the result, and the
    two names are the general document's whenever the design document does
    not have them. *)
Theorem merge_ignores_other_general_keys (settings : object)
    (d g : gmap string jsval) k (rows : list row) :
  k <> "server_name" -> k <> "welcome_message" ->
  rows ≡ₚ [Row "design_settings" d; Row "general_settings" g] ->
  merge_row settings (Row "general_settings" g)
  = (obj_set "welcome_message" (get g "welcome_message")
       (obj_set "server_name" (get g "server_name") settings), None)
  /\ own (fst (merge_row settings (Row "general_settings" g))) !! k
     = own settings !! k
  /\ own (fst (merge_row settings (Row "general_settings" g))) !! "server_name"
     = Some (get g "server_name")
  /\ own (fst (merge_row settings (Row "general_settings" g)))
       !! "welcome_message"
     = Some (get g "welcome_message")
  /\ (forall k' v, k' <> "__proto__" -> d !! k' = Some v ->
        own (fst (merge_row settings (Row "design_settings" d))) !! k'
        = Some v)
  /\ merge_error (Some rows) = None
  /\ merge_rows (Some rows) !! k
     = (if decide (k = "__proto__") then None else d !! k)
  /\ (d !! k = None -> merge_rows (Some rows) !! k = None)
  /\ (forall n, whitelisted n -> d !! n = None ->
        merge_rows (Some rows) !! n = Some (get g n))
  /\ (forall B w,
        Exists null_general (default [] (data (select_response B))) ->
        designSettings (snd (fetchDesignSettings B w)) = designSettings w).
Proof.
  intros H1 H2 Hp.
  assert (merge_rows (Some rows) !! k
          = if decide (k = "__proto__") then None else d !! k) as Hm.
  { apply two_rows_orders in Hp as [-> | ->].
    - rewrite lookup_merge_design_general. repeat case_decide; by subst.
    - rewrite lookup_merge_general_design.
      repeat case_decide; subst; try done. by destruct (d !! k). }
  split; [by apply merge_row_general|].
  rewrite merge_row_general, merge_row_design. cbn [fst].
  split; [rewrite lookup_general_writes; repeat case_decide; by subst|].
  split; [by rewrite lookup_general_writes|].
  split; [by rewrite lookup_general_writes|].
  split.
  { intros k' v Hk' Hd. by rewrite own_Object_assign, Hd. }
  split; [by apply (merge_error_two_rows rows d g)|].
  split; [done|].
  split.
  { intros Hd. rewrite Hm, Hd. by case_decide. }
  split.
  { intros n Hn Hd. apply two_rows_orders in Hp as [-> | ->].
    - rewrite lookup_merge_design_general.
      destruct Hn as [-> | ->]; by simplify_eq/=.
    - rewrite lookup_merge_general_design, Hd.
      destruct Hn as [-> | ->]; by simplify_eq/=. }
  intros B w Hx.
  destruct (fetch_toasts B w) as [(_ & F & _)|(_ & _ & S)]; [|done].
  by apply Forall_not_Exists in F.
Qed.

(** C8 as stated fails: a [__proto__] property of the design document is
    not copied into the loaded object, and with a general row that holds
    [null] no property of the design document is. *)
Lemma fetch_drops_proto_key :
  let d : gmap string jsval :=
    {[ "__proto__" := JStr (js "x"); "primary_color" := JStr (js "#123456") ]} in
  let B := accepting (Response
    (Some [Row "design_settings" d; Row "general_settings" ∅]) None) in
  let Bn := accepting (Response
    (Some [Row "design_settings" d; MkRow "general_settings" JsonNull]) None) in
  d !! "__proto__" = Some (JStr (js "x"))
  /\ designSettings (snd (fetchDesignSettings B idle)) !! "primary_color"
     = Some (JStr (js "#123456"))
  /\ designSettings (snd (fetchDesignSettings B idle)) !! "__proto__" = None
  /\ designSettings (snd (fetchDesignSettings Bn idle)) !! "primary_color"
     = None.
Proof. vm_compute. repeat split. Qed.

(** ** Save, then load *)

Lemma lookup_toJSON (o : gmap string jsval) k v :
  toJSON o !! k = Some v <-> o !! k = Some v /\ v <> JUndefined.
Proof. unfold toJSON. by rewrite map_lookup_filter_Some. Qed.

Lemma lookup_toJSON_None (o : gmap string jsval) k :
  o !! k = None -> toJSON o !! k = None.
Proof.
  intros H. unfold toJSON. apply map_lookup_filter_None. left. done.
Qed.

Lemma truthy_defined v : truthy v = true -> v <> JUndefined.
Proof. by intros H ->. Qed.

Lemma get_toJSON (o : gmap string jsval) k : get (toJSON o) k = get o k.
Proof.
  unfold get. destruct (o !! k) as [v|] eqn:E.
  - destruct (decide (v = JUndefined)) as [->|Hv].
    + assert (toJSON o !! k = None) as ->; [|done].
      unfold toJSON. apply map_lookup_filter_None. right.
      intros x Hx. simplify_eq. simpl. by intros ?.
    + assert (toJSON o !! k = Some v) as ->; [|done].
      by apply lookup_toJSON.
  - by rewrite lookup_toJSON_None.
Qed.

Lemma stored_rows_two (t : gmap string stored) :
  stored_rows t ["design_settings"; "general_settings"]
  = option_list ((fun st => Row "design_settings" (st_value st))
                   <$> t !! "design_settings")
    ++ option_list ((fun st => Row "general_settings" (st_value st))
                      <$> t !! "general_settings").
Proof.
  unfold stored_rows. simpl.
  by destruct (t !! "design_settings"), (t !! "general_settings").
Qed.

Lemma lookup_toJSON_eq (o : gmap string jsval) k :
  toJSON o !! k
  = match o !! k with
    | Some v => if decide (v = JUndefined) then None else Some v
    | None => None
    end.
Proof.
  destruct (o !! k) as [v|] eqn:E; [|by apply lookup_toJSON_None].
  case_decide as Hv.
  - subst. unfold toJSON. apply map_lookup_filter_None. right.
    intros x Hx. simplify_eq. simpl. by intros ?.
  - by apply lookup_toJSON.
Qed.

(** The merged object for one row of each kind, in either order, when the
    design document has neither of the two names. *)
Lemma lookup_merge_two (rows : list row) (d g : gmap string jsval) k :
  rows ≡ₚ [Row "design_settings" d; Row "general_settings" g] ->
  d !! "server_name" = None -> d !! "welcome_message" = None ->
  merge_rows (Some rows) !! k
  = if decide (whitelisted k) then Some (get g k)
    else if decide (k = "__proto__") then None
    else d !! k.
Proof.
  intros Hp Hsn Hwm.
  apply two_rows_orders in Hp as [-> | ->].
  - rewrite lookup_merge_design_general. unfold whitelisted.
    repeat case_decide; subst; try done; tauto.
  - rewrite lookup_merge_general_design.
    destruct (decide (whitelisted k)) as [[-> | ->]|Hw].
    + by rewrite Hsn.
    + by rewrite Hwm.
    + case_decide; [done|]. destruct (d !! k); [done|].
      unfold whitelisted in Hw. repeat case_decide; subst; try done; tauto.
Qed.

(** The settings object a load gives once a save has been accepted,
    property by property, whatever the loading session held before. *)
Lemma lookup_load_after_save (B1 B2 : backend) (w w2 : world) k :
  (forall r, upsert_error B1 r = None) ->
  reports (server_settings (snd (saveDesignSettings B1 w)))
          (select_response B2) ->
  designSettings (snd (fetchDesignSettings B2 w2)) !! k
  = if decide (whitelisted k) then
      if has_general (designSettings w)
      then Some (get (designSettings w) k)
      else (fun st => get (st_value st) k)
             <$> server_settings w !! "general_settings"
    else if decide (k = "__proto__") then None
    else toJSON (designSettings w) !! k.
Proof.
  intros Hok [Herr (rows & Hdata & Hperm)].
  destruct (save_accepted B1 w Hok) as [_ Ht]. rewrite Ht in Hperm. clear Ht.
  rewrite stored_rows_two in Hperm.
  assert (toJSON (designData (designSettings w)) !! "server_name" = None)
    as Hsn by (apply lookup_toJSON_None; by rewrite lookup_designData).
  assert (toJSON (designData (designSettings w)) !! "welcome_message" = None)
    as Hwm by (apply lookup_toJSON_None; by rewrite lookup_designData).
  assert (~ whitelisted k ->
          toJSON (designData (designSettings w)) !! k
          = toJSON (designSettings w) !! k) as Hd.
  { intros Hw. rewrite !lookup_toJSON_eq, lookup_designData.
    unfold whitelisted in Hw. repeat case_decide; subst; try done; tauto. }
  assert (forall g,
            rows ≡ₚ [Row "design_settings"
                        (toJSON (designData (designSettings w)));
                     Row "general_settings" g] ->
            designSettings (snd (fetchDesignSettings B2 w2)) !! k
            = if decide (whitelisted k) then Some (get g k)
              else if decide (k = "__proto__") then None
              else toJSON (designSettings w) !! k) as Hboth.
  { intros g Hp.
    assert (merge_error (data (select_response B2)) = None) as Hm
      by (rewrite Hdata; exact (merge_error_two_rows rows _ g Hp)).
    rewrite (fetch_succeeds B2 w2 Herr Hm). simpl. rewrite Hdata.
    rewrite (lookup_merge_two _ _ _ k Hp Hsn Hwm).
    repeat case_decide; try done. by apply Hd. }
  destruct (has_general (designSettings w)) eqn:Hg.
  - rewrite lookup_insert_ne, lookup_insert_eq in Hperm by done.
    rewrite lookup_insert_eq in Hperm. simpl in Hperm.
    rewrite (Hboth _ Hperm).
    case_decide as Hw; [|done].
    rewrite get_toJSON. unfold get at 1. rewrite lookup_generalData.
    destruct Hw as [-> | ->]; by simplify_eq/=.
  - rewrite lookup_insert_eq, lookup_insert_ne in Hperm by done.
    simpl in Hperm.
    destruct (server_settings w !! "general_settings") as [old|];
      simpl in Hperm.
    + by rewrite (Hboth _ Hperm).
    + apply Permutation_singleton_r in Hperm. subst rows.
      assert (merge_error (data (select_response B2)) = None) as Hm
        by by rewrite Hdata.
      rewrite (fetch_succeeds B2 w2 Herr Hm). simpl. rewrite Hdata.
      rewrite lookup_merge_design_alone.
      case_decide as Hw.
      * rewrite decide_False by (destruct Hw as [-> | ->]; discriminate).
        destruct Hw as [-> | ->]; by rewrite ?Hsn, ?Hwm.
      * case_decide; [done|]. by apply Hd.
Qed.

(** C1. Save a settings object with no upsert refused, then load with a
    select that reports the two rows of the table, in either order, in a
    session that holds any settings object [s0] in memory: every property
    of the saved object whose value is truthy (a non-empty string, in
    particular) is in the loaded object with the same value. The name
    [__proto__], which is no field of the settings, is left aside. *)
Theorem save_load_roundtrip (B1 B2 : backend) (w : world)
    (s0 : gmap string jsval) k v :
  (forall r, upsert_error B1 r = None) ->
  reports (server_settings (snd (saveDesignSettings B1 w)))
          (select_response B2) ->
  designSettings w !! k = Some v ->
  truthy v = true ->
  k <> "__proto__" ->
  designSettings
    (snd (fetchDesignSettings B2
            (set_designSettings s0 (snd (saveDesignSettings B1 w))))) !! k
  = Some v.
Proof.
  intros Hok Hrep Hk Hv Hp.
  rewrite (lookup_load_after_save B1 B2 w _ k Hok Hrep).
  assert (get (designSettings w) k = v) as Hget by (unfold get; by rewrite Hk).
  case_decide as Hw.
  - assert (has_general (designSettings w) = true) as ->; [|by rewrite Hget].
    unfold has_general.
    destruct Hw as [-> | ->]; rewrite Hget, Hv; [done|apply orb_true_r].
  - rewrite decide_False by done. rewrite lookup_toJSON_eq, Hk.
    rewrite decide_False; [done|]. by apply truthy_defined.
Qed.

(** ** Uploading *)

(** C9. A file whose type does not start with [image/], or whose size is
    above 5 * 1024 * 1024 bytes, is turned away with a destructive toast
    ("Invalid File" or "File Too Large") and nothing else happens: no call
    reaches the blob store, and the settings object, the table and the
    uploading flag are as before. *)
Theorem upload_rejected_before_store (B : backend) (w : world) (f : File) :
  startsWith (type f) (js "image/") = false \/ (max_size < size f)%N ->
  let w' := snd (handleImageUpload B (Some f) w) in
  max_size = 5242880%N
  /\ calls w' = calls w
  /\ designSettings w' = designSettings w
  /\ server_settings w' = server_settings w
  /\ uploading w' = uploading w
  /\ exists t,
       toasts w' = toasts w ++ [t]
       /\ destructive t = true
       /\ (title t = "Invalid File" \/ title t = "File Too Large").
Proof.
  intros H. run.
  destruct (startsWith (type f) (js "image/")) eqn:Ht; simpl.
  - destruct H as [H|H]; [done|].
    apply N.ltb_lt in H. rewrite H. simpl.
    repeat split; eexists; repeat split; eauto.
  - repeat split; eexists; repeat split; eauto.
Qed.

(** ** Instances *)

Lemma save_load_roundtrip_witness :
  let s : gmap string jsval :=
    {[ "primary_color" := JStr (js "#123456");
       "server_name" := JStr (js "Foo");
       "custom_css" := JStr [] ]} in
  let w := set_designSettings s idle in
  let B1 := accepting (Response None None) in
  let B2 := accepting (Response
    (Some [Row "general_settings" {[ "server_name" := JStr (js "Foo") ]};
           Row "design_settings"
             {[ "primary_color" := JStr (js "#123456");
                "custom_css" := JStr [] ]}]) None) in
  designSettings
    (snd (fetchDesignSettings B2
            (set_designSettings ∅ (snd (saveDesignSettings B1 w)))))
    !! "server_name" = Some (JStr (js "Foo")).
Proof.
  intros s w B1 B2.
  apply (save_load_roundtrip B1 B2 w ∅ "server_name" (JStr (js "Foo"))).
  - intros r. reflexivity.
  - split; [reflexivity|]. eexists. split; [reflexivity|].
    vm_compute. apply perm_swap.
  - vm_compute. reflexivity.
  - reflexivity.
  - discriminate.
Defined.

(** C2 as stated fails: with the general row first and a design document
    that has a [server_name] of its own, the loaded [server_name] is the
    design document's, not the general document's. *)
Lemma fetch_design_row_overwrites_general :
  let g : gmap string jsval := {[ "server_name" := JStr (js "Foo") ]} in
  let d : gmap string jsval := {[ "server_name" := JStr (js "Bar") ]} in
  let B := accepting (Response
    (Some [Row "general_settings" g; Row "design_settings" d]) None) in
  get (designSettings (snd (fetchDesignSettings B idle))) "server_name"
  = JStr (js "Bar")
  /\ get (designSettings (snd (fetchDesignSettings B idle))) "server_name"
     <> get g "server_name".
Proof. vm_compute. split; [reflexivity|discriminate]. Qed.

Lemma merge_whitelisted_last_writer_witness :
  let g : gmap string jsval := {[ "server_name" := JStr (js "Foo") ]} in
  let d : gmap string jsval := {[ "server_name" := JStr (js "Bar") ]} in
  get (merge_rows (Some [Row "design_settings" d; Row "general_settings" g]))
      "server_name" = JStr (js "Foo")
  /\ get (merge_rows (Some [Row "general_settings" g; Row "design_settings" d]))
         "server_name" = JStr (js "Bar").
Proof.
  intros g d.
  destruct (merge_whitelisted_last_writer d g "server_name"
              (or_introl eq_refl)) as (H1 & H2 & _).
  split; [exact H1 | exact H2].
Defined.

(** C3 as stated fails: with an empty [server_name] and no
    [welcome_message], the save sends one document, the design one, and
    [server_name], a property of the settings object, is not in it. *)
Lemma save_sends_blank_server_name_nowhere :
  let s : gmap string jsval :=
    {[ "primary_color" := JStr (js "#123456"); "server_name" := JStr [] ]} in
  let w := set_designSettings s idle in
  designSettings w !! "server_name" = Some (JStr [])
  /\ upserts (calls (snd (saveDesignSettings (accepting (Response None None)) w)))
     = [("design_settings", {[ "primary_color" := JStr (js "#123456") ]})].
Proof. vm_compute. split; reflexivity. Qed.

Lemma save_partition_witness :
  let s : gmap string jsval :=
    {[ "primary_color" := JStr (js "#123456");
       "server_name" := JStr (js "Foo") ]} in
  let w := set_designSettings s idle in
  let B := accepting (Response None None) in
  calls (snd (saveDesignSettings B w))
  = [CUpsert (design_upsert B w); CUpsert (general_upsert B w)].
Proof.
  intros s w B.
  exact (proj1 (save_partition B w (fun r => eq_refl))).
Defined.

Lemma save_skips_general_upsert_witness :
  let s : gmap string jsval :=
    {[ "primary_color" := JStr (js "#123456"); "server_name" := JStr [] ]} in
  let w := set_designSettings s idle in
  let B := accepting (Response None None) in
  calls (snd (saveDesignSettings B w)) = calls w ++ [CUpsert (design_upsert B w)].
Proof.
  intros s w B.
  exact (proj1 (save_skips_general_upsert B w eq_refl eq_refl)).
Defined.


Lemma merge_ignores_other_general_keys_witness :
  let d : gmap string jsval := {[ "primary_color" := JStr (js "#123456") ]} in
  let g : gmap string jsval :=
    {[ "server_name" := JStr (js "Foo"); "welcome_message" := JStr (js "Hi");
       "extra_field" := JStr (js "ignored") ]} in
  let rows := [Row "general_settings" g; Row "design_settings" d] in
  merge_rows (Some rows) !! "extra_field" = None
  /\ merge_rows (Some rows) !! "server_name" = Some (JStr (js "Foo")).
Proof.
  intros d g rows.
  destruct (merge_ignores_other_general_keys empty_object d g "extra_field"
              rows)
    as (_ & _ & _ & _ & _ & _ & _ & H & Hn & _).
  - discriminate.
  - discriminate.
  - apply perm_swap.
  - split.
    + apply H. reflexivity.
    + apply (Hn "server_name"); [by left|reflexivity].
Defined.

Lemma upload_rejected_before_store_witness :
  let f := MkFile (js "hero.png") (js "image/png") (6 * 1024 * 1024) in
  calls (snd (handleImageUpload (accepting (Response None None)) (Some f) idle))
  = [].
Proof.
  intros f.
  destruct (upload_rejected_before_store (accepting (Response None None)) idle f)
    as (_ & H & _).
  - right. reflexivity.
  - exact H.
Defined.

Lemma save_keeps_override_without_css_witness :
  let s : gmap string jsval := {[ "custom_css" := JStr [] ]} in
  let d := Document [Element "style" custom_design_css (js "body{color:red}")]
                    [] in
  let w := set_page d (set_designSettings s idle) in
  page (snd (saveDesignSettings (accepting (Response None None)) w)) = d.
Proof.
  intros s d w.
  exact (proj1 (save_keeps_override_without_css
                  (accepting (Response None None)) w eq_refl)).
Defined.

(** * Further properties *)

(** ** What [trim] keeps *)

Lemma trimStart_nil (s : jsstring) :
  trimStart s = [] <-> forallb isWhiteSpace s = true.
Proof.
  induction s as [|c s IH]; simpl; [done|].
  destruct (isWhiteSpace c); simpl; [done|]. split; discriminate.
Qed.

Lemma trimStart_blank_nil (s : jsstring) :
  forallb isWhiteSpace (trimStart s) = true -> trimStart s = [].
Proof.
  induction s as [|c s IH]; simpl; [done|].
  destruct (isWhiteSpace c) eqn:E; [done|]. simpl. by rewrite E.
Qed.

Lemma forallb_rev (f : N -> bool) (l : list N) :
  forallb f (rev l) = forallb f l.
Proof.
  induction l as [|x l IH]; simpl; [done|].
  rewrite forallb_app, IH. simpl. rewrite andb_true_r. apply andb_comm.
Qed.

Lemma trim_nil (s : jsstring) :
  trim s = [] <-> forallb isWhiteSpace s = true.
Proof.
  unfold trim, trimEnd. rewrite <- trimStart_nil. split.
  - intros H. apply (f_equal (@rev N)) in H. rewrite rev_involutive in H.
    simpl in H. apply trimStart_nil in H. rewrite forallb_rev in H.
    by apply trimStart_blank_nil.
  - intros ->. done.
Qed.

(** ** updateCustomCSS and the rest of the page *)

Section MoreOverrides.

Local Abbreviation is_override := (fun e : element => id e = custom_design_css).
Local Abbreviation is_other := (fun e : element => id e <> custom_design_css).

(** X1. [updateCustomCSS] by the content of the text: a text made of white
    space only (the empty text included) only removes the element found;
    any other text is appended after that, as it is. *)
Theorem updateCustomCSS_by_content (css : jsstring) (d : document) :
  updateCustomCSS css d
  = if forallb isWhiteSpace css
    then remove_existing d
    else head_appendChild (Element "style" custom_design_css css)
                          (remove_existing d).
Proof.
  rewrite updateCustomCSS_unfold.
  destruct (forallb isWhiteSpace css) eqn:E.
  - apply trim_nil in E. by rewrite E.
  - destruct (truthy (JStr (trim css))) eqn:Ht; [done|].
    assert (trim css = []) as Hn.
    { by destruct (trim css). }
    apply trim_nil in Hn. congruence.
Qed.

Lemma others_remove_first (l : list element) :
  others (remove_first custom_design_css l) = others l.
Proof.
  unfold others. induction l as [|e l IH]; simpl; [done|].
  destruct (has_id custom_design_css e) eqn:He.
  - apply has_id_true in He. rewrite filter_cons_False; [done|]. by intros ?.
  - apply has_id_false in He. rewrite !filter_cons_True by done. by rewrite IH.
Qed.

Lemma others_remove_existing (d : document) :
  others (head (remove_existing d)) = others (head d)
  /\ others (body (remove_existing d)) = others (body d).
Proof.
  unfold remove_existing, remove_found.
  destruct (getElementById d custom_design_css); [|done].
  destruct (existsb (has_id custom_design_css) (head d)); simpl;
    by rewrite others_remove_first.
Qed.

Lemma others_updateCustomCSS (css : jsstring) (d : document) :
  others (head (updateCustomCSS css d)) = others (head d)
  /\ others (body (updateCustomCSS css d)) = others (body d).
Proof.
  destruct (others_remove_existing d) as [Hh Hb].
  rewrite updateCustomCSS_unfold.
  destruct (truthy (JStr (trim css))); [|done]. simpl. split; [|done].
  unfold others in *. rewrite filter_app, Hh.
  rewrite filter_cons_False; [|by intros ?].
  by rewrite filter_nil, app_nil_r.
Qed.

(** X2. [updateCustomCSS] leaves every element with another id where it is:
    under [<head>] and under [<body>] the elements that are not style
    overrides are the same, in the same order, whatever the text and
    whatever the document. *)
Theorem updateCustomCSS_keeps_others (css : jsstring) (d : document) :
  others (head (updateCustomCSS css d)) = others (head d)
  /\ others (body (updateCustomCSS css d)) = others (body d)
  /\ others (all_elements (updateCustomCSS css d)) = others (all_elements d).
Proof.
  destruct (others_updateCustomCSS css d) as [Hh Hb].
  repeat split; [done..|].
  unfold all_elements, others in *. by rewrite !filter_app, Hh, Hb.
Qed.

(** With at most one override among them, the siblings left by the removal
    are the elements that are not overrides. *)
Lemma remove_first_at_most_one (l : list element) :
  length (filter is_override l) <= 1 ->
  remove_first custom_design_css l = others l.
Proof.
  unfold others. induction l as [|e l IH]; simpl; [done|].
  destruct (has_id custom_design_css e) eqn:He.
  - apply has_id_true in He. rewrite filter_cons_True by done. simpl.
    intros Hl. rewrite filter_cons_False; [|by intros ?].
    assert (filter is_override l = []) as Hn
      by (apply length_zero_iff_nil; lia).
    clear IH Hl. induction l as [|x l IH]; [done|].
    destruct (decide (is_override x)) as [Hx|Hx].
    + by rewrite filter_cons_True in Hn.
    + rewrite filter_cons_False in Hn by done.
      rewrite filter_cons_True by done. by rewrite <- IH.
  - apply has_id_false in He. rewrite filter_cons_False by done.
    intros Hl. rewrite filter_cons_True by done. by rewrite IH.
Qed.

Lemma no_override_others (l : list element) :
  filter is_override l = [] -> others l = l.
Proof.
  intros H. rewrite <- remove_first_at_most_one by (rewrite H; simpl; lia).
  destruct (existsb (has_id custom_design_css) l) eqn:E.
  - apply filter_remove_first in E. by rewrite H in E.
  - by apply filter_absent in E as [_ ->].
Qed.

Lemma remove_existing_at_most_one (d : document) :
  length (overrides d) <= 1 ->
  remove_existing d = Document (others (head d)) (others (body d)).
Proof.
  rewrite overrides_split, length_app. intros Hl.
  unfold remove_existing.
  destruct (getElementById d custom_design_css) eqn:Hg.
  - unfold remove_found.
    destruct (existsb (has_id custom_design_css) (head d)) eqn:Hh.
    + pose proof (filter_remove_first _ Hh) as Hc.
      rewrite remove_first_at_most_one by lia.
      rewrite (no_override_others (body d)); [done|].
      apply length_zero_iff_nil. lia.
    + apply filter_absent in Hh as [Hh _].
      rewrite (no_override_others (head d)) by done.
      rewrite remove_first_at_most_one; [done|]. rewrite Hh in Hl. simpl in Hl. lia.
  - apply getElementById_None in Hg. rewrite overrides_split in Hg.
    apply app_eq_nil in Hg as [Hh Hb].
    rewrite !no_override_others by done. by destruct d.
Qed.

Lemma remove_existing_updateCustomCSS (css : jsstring) (d : document) :
  length (overrides d) <= 1 ->
  remove_existing (updateCustomCSS css d) = remove_existing d.
Proof.
  intros Hd.
  rewrite remove_existing_at_most_one
    by by apply updateCustomCSS_at_most_one.
  rewrite (remove_existing_at_most_one d) by done.
  by destruct (others_updateCustomCSS css d) as [-> ->].
Qed.

(** X3. In a document with at most one style override, a run of
    [updateCustomCSS] calls leaves the document that its last call alone
    gives: every earlier text is gone without trace. In particular the call
    is idempotent. *)
Theorem apply_all_last_wins (xs : list jsstring) (x : jsstring) (d : document) :
  length (overrides d) <= 1 ->
  apply_all (xs ++ [x]) d = updateCustomCSS x d
  /\ updateCustomCSS x (updateCustomCSS x d) = updateCustomCSS x d.
Proof.
  intros Hd.
  assert (forall y d0, length (overrides d0) <= 1 ->
            updateCustomCSS x (updateCustomCSS y d0) = updateCustomCSS x d0)
    as Habsorb.
  { intros y d0 H0. rewrite !updateCustomCSS_unfold.
    rewrite <- !updateCustomCSS_unfold.
    rewrite (updateCustomCSS_unfold x (updateCustomCSS y d0)).
    rewrite remove_existing_updateCustomCSS by done.
    by rewrite <- updateCustomCSS_unfold. }
  split; [|by apply Habsorb].
  unfold apply_all. rewrite foldl_app. simpl.
  revert d Hd. induction xs as [|y xs IH]; intros d Hd; simpl; [done|].
  rewrite IH by by apply updateCustomCSS_at_most_one.
  by apply Habsorb.
Qed.

Lemma apply_all_last_wins_witness :
  let d := Document [Element "meta" "m" []]
                    [Element "style" custom_design_css (js "a{}")] in
  apply_all ([js "p{}"; []] ++ [js "b{}"]) d = updateCustomCSS (js "b{}") d.
Proof.
  intros d.
  apply (apply_all_last_wins [js "p{}"; []] (js "b{}") d).
  vm_compute. lia.
Defined.

End MoreOverrides.

(** ** How a save ends *)

Section SaveOutcomes.

Variable B : backend.

(** X4. Whatever the store answers, [saveDesignSettings] returns normally
    with [isLoading] false again, shows exactly one toast, and leaves the
    settings object and the [uploading] flag as they were. *)
Theorem save_always_settles (w : world) :
  fst (saveDesignSettings B w) = Return ()
  /\ isLoading (snd (saveDesignSettings B w)) = false
  /\ designSettings (snd (saveDesignSettings B w)) = designSettings w
  /\ uploading (snd (saveDesignSettings B w)) = uploading w
  /\ (toasts (snd (saveDesignSettings B w)) = toasts w ++ [saved_toast]
      \/ toasts (snd (saveDesignSettings B w)) = toasts w ++ [save_failed_toast]).
Proof.
  run.
  destruct (upsert_error B _); simpl; [by auto 10|].
  destruct (has_general (designSettings w)); simpl;
    [destruct (upsert_error B _); simpl; [by auto 10|]|];
    (destruct (truthy (get (designSettings w) "custom_css")); simpl;
      [destruct (get (designSettings w) "custom_css")|]); simpl; by auto 10.
Qed.

(** X5. When the design upsert is refused the save stops there: no general
    upsert is issued, the table and the document are untouched, and the
    failure is logged and shown. *)
Theorem save_design_refused (w : world) (e : exn) :
  upsert_error B (design_upsert B w) = Some e ->
  calls (snd (saveDesignSettings B w)) = calls w ++ [CUpsert (design_upsert B w)]
  /\ server_settings (snd (saveDesignSettings B w)) = server_settings w
  /\ page (snd (saveDesignSettings B w)) = page w
  /\ toasts (snd (saveDesignSettings B w)) = toasts w ++ [save_failed_toast]
  /\ console (snd (saveDesignSettings B w))
     = console w ++ ["Error saving design settings:"].
Proof.
  intros He. run. fold (design_upsert B w). rewrite He. simpl. done.
Qed.

(** X6. When the design upsert is accepted and the general one refused, the
    table is left half written: the design document is the new one, every
    other row is as before, the custom CSS is not applied, and the failure
    is shown. *)
Theorem save_general_refused (w : world) (e : exn) :
  upsert_error B (design_upsert B w) = None ->
  has_general (designSettings w) = true ->
  upsert_error B (general_upsert B w) = Some e ->
  calls (snd (saveDesignSettings B w))
  = calls w ++ [CUpsert (design_upsert B w); CUpsert (general_upsert B w)]
  /\ server_settings (snd (saveDesignSettings B w))
     = <["design_settings" := stored_of (design_upsert B w)]> (server_settings w)
  /\ page (snd (saveDesignSettings B w)) = page w
  /\ toasts (snd (saveDesignSettings B w)) = toasts w ++ [save_failed_toast].
Proof.
  intros Hd Hg He. run. fold (design_upsert B w). rewrite Hd. simpl.
  rewrite Hg. simpl. fold (general_upsert B w). rewrite He. simpl.
  by rewrite <- app_assoc.
Qed.

Lemma saveDesignSettings_succeeds (w : world) :
  (forall r, upsert_error B r = None) ->
  truthy (get (designSettings w) "custom_css") = false
  \/ (exists css, get (designSettings w) "custom_css" = JStr css) ->
  toasts (snd (saveDesignSettings B w)) = toasts w ++ [saved_toast]
  /\ console (snd (saveDesignSettings B w)) = console w.
Proof.
  intros Hok Hc. run. rewrite !Hok. simpl.
  destruct (has_general (designSettings w)); simpl; rewrite ?Hok; simpl;
    (destruct Hc as [Hc | [css Hc]]; rewrite Hc; simpl;
      [done | by destruct css]).
Qed.

(** X7. When no upsert is refused and [custom_css] is a string or is not
    truthy, the save shows the success toast and logs nothing. *)
Theorem save_succeeds (w : world) :
  (forall r, upsert_error B r = None) ->
  truthy (get (designSettings w) "custom_css") = false
  \/ (exists css, get (designSettings w) "custom_css" = JStr css) ->
  toasts (snd (saveDesignSettings B w)) = toasts w ++ [saved_toast]
  /\ console (snd (saveDesignSettings B w)) = console w.
Proof. apply saveDesignSettings_succeeds. Qed.

(** X8. A truthy [custom_css] that is not a string (a number or [true] that
    came from the stored document) makes a save fail after the fact: both
    documents are stored, the style override found is removed, nothing is
    installed, and the failure toast is shown. *)
Theorem save_css_not_a_string (w : world) :
  (forall r, upsert_error B r = None) ->
  truthy (get (designSettings w) "custom_css") = true ->
  (forall css, get (designSettings w) "custom_css" <> JStr css) ->
  server_settings (snd (saveDesignSettings B w)) !! "design_settings"
  = Some (stored_of (design_upsert B w))
  /\ page (snd (saveDesignSettings B w)) = remove_existing (page w)
  /\ toasts (snd (saveDesignSettings B w)) = toasts w ++ [save_failed_toast].
Proof.
  intros Hok Ht Hns. run. rewrite !Hok. simpl.
  destruct (has_general (designSettings w)); simpl; rewrite ?Hok; simpl;
    rewrite Ht; simpl;
    (destruct (get (designSettings w) "custom_css") eqn:E;
      try discriminate; try (by exfalso; eapply Hns); simpl);
    by simplify_map_eq.
Qed.

(** X9. A [custom_css] of white space only is truthy, so the save hands it
    to [updateCustomCSS], which removes the override and installs none:
    unlike the empty string, it clears the style. *)
Theorem save_blank_css_clears (w : world) (css : jsstring) :
  (forall r, upsert_error B r = None) ->
  get (designSettings w) "custom_css" = JStr css ->
  css <> [] ->
  forallb isWhiteSpace css = true ->
  length (overrides (page w)) <= 1 ->
  overrides (page (snd (saveDesignSettings B w))) = [].
Proof.
  intros Hok Hc Hne Hws Hd.
  rewrite (save_page_updated B w css Hc Hne Hok).
  apply updateCustomCSS_clears; [done|]. by apply trim_nil.
Qed.

(** X10. When a save does write the general document, the document stored is
    made of [server_name] and [welcome_message] only, each with the value
    of the settings object and left out when that value is undefined:
    whatever else the stored general document held is gone. *)
Theorem save_general_document (w : world) (k : string) :
  (forall r, upsert_error B r = None) ->
  has_general (designSettings w) = true ->
  st_value <$> server_settings (snd (saveDesignSettings B w)) !! "general_settings"
  = Some (toJSON (generalData (designSettings w)))
  /\ toJSON (generalData (designSettings w)) !! k
     = if decide (whitelisted k)
       then (if decide (get (designSettings w) k = JUndefined)
             then None else Some (get (designSettings w) k))
       else None.
Proof.
  intros Hok Hg. destruct (save_accepted B w Hok) as [_ ->]. rewrite Hg.
  rewrite lookup_insert_eq. split; [done|].
  destruct (decide (whitelisted k)) as [Hw|Hw].
  - case_decide as Hu.
    + unfold toJSON. apply map_lookup_filter_None. right.
      intros v Hv. rewrite lookup_generalData in Hv.
      destruct Hw as [-> | ->]; simplify_eq/=; by intros ?.
    + apply lookup_toJSON. split; [|done]. rewrite lookup_generalData.
      destruct Hw as [-> | ->]; by simplify_eq/=.
  - apply lookup_toJSON_None. rewrite lookup_generalData.
    unfold whitelisted in Hw. repeat case_decide; subst; tauto.
Qed.

End SaveOutcomes.

(** ** Save and load, composed *)

Lemma toJSON_is_json (o : gmap string jsval) : is_json o -> toJSON o = o.
Proof.
  intros Ho. apply map_eq. intros k. rewrite lookup_toJSON_eq.
  destruct (o !! k) as [v|] eqn:E; [|done].
  case_decide; [|done]. subst. by apply Ho in E.
Qed.

Lemma fetch_keeps_table (B : backend) (w : world) :
  server_settings (snd (fetchDesignSettings B w)) = server_settings w.
Proof.
  destruct (fetch_toasts B w) as [(E & F & _)|(C & _)].
  - by rewrite (fetch_succeeds _ _ E (merge_error_returns _ F)).
  - destruct (error (select_response B)) as [e|] eqn:E.
    + by rewrite (fetch_fails _ _ _ E).
    + destruct C as [C|C]; [done|].
      by rewrite (fetch_throws _ _ _ E (merge_error_throws _ C)).
Qed.

(** X11. What a load gives right after an accepted save, for every property:
    outside the two names, the saved value unless it is undefined (and
    never a [__proto__] property, which no load copies from a document);
    for [server_name] and [welcome_message], the saved value when one of the
    two is truthy, and otherwise what the general document already in the
    table has, the save having left it alone. *)
Theorem load_after_save (B1 B2 : backend) (w : world) k :
  (forall r, upsert_error B1 r = None) ->
  reports (server_settings (snd (saveDesignSettings B1 w)))
          (select_response B2) ->
  designSettings
    (snd (fetchDesignSettings B2 (snd (saveDesignSettings B1 w)))) !! k
  = if decide (whitelisted k) then
      if has_general (designSettings w)
      then Some (get (designSettings w) k)
      else (fun st => get (st_value st) k)
             <$> server_settings w !! "general_settings"
    else if decide (k = "__proto__") then None
    else toJSON (designSettings w) !! k.
Proof. apply lookup_load_after_save. Qed.

(** X12. Blanking both names does not reach the store: after a save with
    neither [server_name] nor [welcome_message] truthy, a load shows for
    both the values of the general document that was stored before. *)
Theorem blank_names_come_back (B1 B2 : backend) (w : world) (old : stored) k :
  (forall r, upsert_error B1 r = None) ->
  reports (server_settings (snd (saveDesignSettings B1 w)))
          (select_response B2) ->
  truthy (get (designSettings w) "server_name") = false ->
  truthy (get (designSettings w) "welcome_message") = false ->
  server_settings w !! "general_settings" = Some old ->
  whitelisted k ->
  get (designSettings
         (snd (fetchDesignSettings B2 (snd (saveDesignSettings B1 w))))) k
  = get (st_value old) k.
Proof.
  intros Hok Hrep H1 H2 Hold Hw. unfold get at 1.
  rewrite (lookup_load_after_save B1 B2 w _ k Hok Hrep).
  rewrite decide_True by done.
  assert (has_general (designSettings w) = false) as ->
    by by apply has_general_false.
  by rewrite Hold.
Qed.

(** X13. Load, then save without touching anything, with a stored design
    document that has neither name: the design document in the table is the
    one that was there less its [__proto__] property, if it had one, which
    the load does not copy; [server_name] and [welcome_message] of the
    general document are as before; every other property of the general
    document is erased as soon as one of the two names is truthy. *)
Theorem load_then_save_store (B1 B2 : backend) (w : world)
    (d g : gmap string jsval) (td tg : jsstring) :
  server_settings w !! "design_settings" = Some (Stored d td) ->
  server_settings w !! "general_settings" = Some (Stored g tg) ->
  is_json d -> is_json g ->
  d !! "server_name" = None -> d !! "welcome_message" = None ->
  reports (server_settings w) (select_response B1) ->
  (forall r, upsert_error B2 r = None) ->
  let w' := snd (saveDesignSettings B2 (snd (fetchDesignSettings B1 w))) in
  st_value <$> server_settings w' !! "design_settings"
  = Some (delete "__proto__" d)
  /\ exists g',
       st_value <$> server_settings w' !! "general_settings" = Some g'
       /\ (forall k, whitelisted k -> g' !! k = g !! k)
       /\ (forall k, ~ whitelisted k ->
             g' !! k = if truthy (get g "server_name")
                          || truthy (get g "welcome_message")
                       then None else g !! k).
Proof.
  intros HD HG Hjd Hjg Hsn Hwm [Herr (rows & Hdata & Hperm)] Hok w'.
  subst w'.
  destruct (save_accepted B2 (snd (fetchDesignSettings B1 w)) Hok) as [_ ->].
  rewrite fetch_keeps_table.
  rewrite stored_rows_two, HD, HG in Hperm. simpl in Hperm.
  assert (forall k, designSettings (snd (fetchDesignSettings B1 w)) !! k
                    = if decide (whitelisted k) then Some (get g k)
                      else if decide (k = "__proto__") then None
                      else d !! k) as Hs.
  { intros k.
    assert (merge_error (data (select_response B1)) = None) as Hm
      by (rewrite Hdata; exact (merge_error_two_rows rows d g Hperm)).
    rewrite (fetch_succeeds _ _ Herr Hm); simpl. rewrite Hdata.
    by apply lookup_merge_two. }
  set (s := designSettings (snd (fetchDesignSettings B1 w))) in *.
  assert (forall k, whitelisted k -> get s k = get g k) as Hget.
  { intros k Hk. unfold get at 1. by rewrite Hs, decide_True. }
  assert (has_general s
          = truthy (get g "server_name") || truthy (get g "welcome_message"))
    as Hhg.
  { unfold has_general. rewrite !Hget; [done|by right|by left]. }
  assert (toJSON (designData s) = delete "__proto__" d) as Hdd.
  { apply map_eq. intros k.
    rewrite lookup_toJSON_eq, lookup_designData, Hs, lookup_delete.
    unfold whitelisted.
    assert (d !! k <> Some JUndefined) as Hu by apply Hjd.
    repeat case_decide; subst; try done; try tauto;
      rewrite ?Hsn, ?Hwm; try done.
    destruct (d !! k) as [v|]; [|done]. case_decide; congruence. }
  split.
  - destruct (has_general s);
      rewrite ?(lookup_insert_ne _ "general_settings") by done;
      rewrite lookup_insert_eq; simpl; f_equal; exact Hdd.
  - destruct (has_general s) eqn:E; rewrite <- Hhg.
    + exists (toJSON (generalData s)).
      split; [by rewrite lookup_insert_eq|]. split.
      * intros k Hk. rewrite lookup_toJSON_eq, lookup_generalData.
        specialize (Hget k Hk).
        assert (g !! k <> Some JUndefined) as Hu by apply Hjg.
        unfold get in Hget at 2.
        destruct Hk as [-> | ->]; simplify_eq/=; rewrite Hget;
          destruct (g !! _) as [v|]; simpl; try done;
          case_decide; congruence.
      * intros k Hk. apply lookup_toJSON_None. rewrite lookup_generalData.
        unfold whitelisted in Hk. repeat case_decide; subst; try done; tauto.
    + exists g. split; [|done].
      rewrite lookup_insert_ne by done. by rewrite HG.
Qed.

(** ** Loading, whatever the rows *)

(** X14. Whatever rows the select returns (any number, any keys, any
    order, any JSON values), provided no general row holds [null] (so that
    the merge does not throw, as is the case whenever every row holds an
    object): a property other than [server_name] and [welcome_message] ends
    up in the merged object as the [design_settings] rows alone would leave
    it, [general_settings] rows and rows of other keys never write it; and
    the design rows alone never throw. *)
Theorem merge_rows_only_design_writes (rows : list row) k :
  ~ whitelisted k ->
  Forall (fun r => ~ null_general r) rows ->
  merge_rows (Some rows) !! k = merge_rows (Some (filter is_design rows)) !! k
  /\ merge_error (Some rows) = None
  /\ merge_error (Some (filter is_design rows)) = None.
Proof.
  intros Hk Hn.
  assert (snd (forEach rows empty_object) = None) as Hr
    by by apply forEach_returns.
  destruct (forEach_design_only rows empty_object empty_object) as [Hd Ha];
    [done..|].
  split; [|done]. unfold merge_rows. destruct Ha as [_ Ha]. by apply Ha.
Qed.

Lemma merge_rows_only_design_writes_witness :
  let g : gmap string jsval := {[ "primary_color" := JStr (js "#ffffff") ]} in
  let d : gmap string jsval := {[ "primary_color" := JStr (js "#123456") ]} in
  let rows := [Row "general_settings" g; Row "design_settings" d;
               MkRow "other" JsonNull; MkRow "design_settings" JsonNull;
               MkRow "general_settings" (JsonStr (js "text"))] in
  merge_rows (Some rows) !! "primary_color"
  = merge_rows (Some (filter is_design rows)) !! "primary_color".
Proof.
  intros g d rows. apply (merge_rows_only_design_writes rows "primary_color").
  - intros [H | H]; discriminate.
  - repeat (apply Forall_cons; split; [by intros [? ?]|]). apply Forall_nil_2.
Defined.

(** X15. A load only reads: it returns normally, issues the one select for
    the two keys, and leaves the table, the document and the two busy flags
    as they were, whether the select fails or not. *)
Theorem fetch_only_reads (B : backend) (w : world) :
  fst (fetchDesignSettings B w) = Return ()
  /\ calls (snd (fetchDesignSettings B w))
     = calls w ++ [CSelect ["design_settings"; "general_settings"]]
  /\ server_settings (snd (fetchDesignSettings B w)) = server_settings w
  /\ page (snd (fetchDesignSettings B w)) = page w
  /\ isLoading (snd (fetchDesignSettings B w)) = isLoading w
  /\ uploading (snd (fetchDesignSettings B w)) = uploading w.
Proof.
  destruct (error (select_response B)) as [e|] eqn:E.
  { by rewrite (fetch_fails _ _ _ E). }
  destruct (merge_error (data (select_response B))) as [e|] eqn:Hm.
  - by rewrite (fetch_throws _ _ _ E Hm).
  - by rewrite (fetch_succeeds _ _ E Hm).
Qed.

(** ** Uploading, past the two checks *)

Section Upload.

Variable B : backend.

Lemma startsWith_app (s p : jsstring) :
  startsWith s p = true <-> exists r, s = p ++ r.
Proof.
  revert s. induction p as [|a p IH]; intros s; simpl.
  - split; [by exists s|by destruct s].
  - destruct s as [|b s]; simpl.
    + split; [done|]. by intros [r Hr].
    + rewrite andb_true_iff, N.eqb_eq, IH. split.
      * intros [-> [r ->]]. by exists r.
      * intros [r Hr]. simplify_eq. split; [done|by exists r].
Qed.

Lemma handleImageUpload_accepted (w : world) (f : File) :
  startsWith (type f) (js "image/") = true ->
  (size f <= max_size)%N ->
  upload_error B (filePath (clock B (ticks w)) (name f)) = None ->
  let path := filePath (clock B (ticks w)) (name f) in
  handleImageUpload B (Some f) w
  = (Return (),
     set_uploading false
       (push_toast uploaded_toast
          (set_designSettings
             (<["hero_image_url" := JStr (publicUrl B path)]> (designSettings w))
             (log_call (CGetPublicUrl "user-avatars" path)
                (log_call (CUpload "user-avatars" path f)
                   (tick (set_uploading true w))))))).
Proof.
  intros Ht Hs Hu path. subst path. unfold filePath in *.
  run. rewrite Ht. simpl. apply N.ltb_ge in Hs. rewrite Hs. simpl.
  simpl in Hu. rewrite Hu. simpl. done.
Qed.

(** X16. An image of at most 5 * 1024 * 1024 bytes (that size included) that
    the store accepts is uploaded under [filePath] of the clock reading and
    its name; the public URL of that path becomes [hero_image_url], the rest
    of the settings object is kept, the success toast is shown and
    [uploading] is false at the end. *)
Theorem upload_accepted (w : world) (f : File) :
  startsWith (type f) (js "image/") = true ->
  (size f <= max_size)%N ->
  upload_error B (filePath (clock B (ticks w)) (name f)) = None ->
  let path := filePath (clock B (ticks w)) (name f) in
  let w' := snd (handleImageUpload B (Some f) w) in
  fst (handleImageUpload B (Some f) w) = Return ()
  /\ calls w' = calls w ++ [CUpload "user-avatars" path f;
                            CGetPublicUrl "user-avatars" path]
  /\ designSettings w'
     = <["hero_image_url" := JStr (publicUrl B path)]> (designSettings w)
  /\ toasts w' = toasts w ++ [uploaded_toast]
  /\ uploading w' = false
  /\ server_settings w' = server_settings w
  /\ page w' = page w.
Proof.
  intros Ht Hs Hu path w'. subst w'.
  rewrite (handleImageUpload_accepted w f Ht Hs Hu). fold path. simpl.
  repeat split. by rewrite <- app_assoc.
Qed.

Lemma handleImageUpload_refused (w : world) (f : File) (e : exn) :
  startsWith (type f) (js "image/") = true ->
  (size f <= max_size)%N ->
  upload_error B (filePath (clock B (ticks w)) (name f)) = Some e ->
  handleImageUpload B (Some f) w
  = (Return (),
     set_uploading false
       (push_toast upload_failed_toast
          (push_console "Error uploading image:"
             (log_call (CUpload "user-avatars"
                                (filePath (clock B (ticks w)) (name f)) f)
                (tick (set_uploading true w)))))).
Proof.
  intros Ht Hs Hu. unfold filePath in *.
  run. rewrite Ht. simpl. apply N.ltb_ge in Hs. rewrite Hs. simpl.
  simpl in Hu. rewrite Hu. simpl. done.
Qed.

(** X17. When the store refuses the upload, the public URL is never asked
    for, the settings object is untouched, the failure is logged and shown,
    and [uploading] is false at the end. *)
Theorem upload_refused_by_store (w : world) (f : File) (e : exn) :
  startsWith (type f) (js "image/") = true ->
  (size f <= max_size)%N ->
  upload_error B (filePath (clock B (ticks w)) (name f)) = Some e ->
  let w' := snd (handleImageUpload B (Some f) w) in
  fst (handleImageUpload B (Some f) w) = Return ()
  /\ calls w'
     = calls w ++ [CUpload "user-avatars"
                           (filePath (clock B (ticks w)) (name f)) f]
  /\ designSettings w' = designSettings w
  /\ toasts w' = toasts w ++ [upload_failed_toast]
  /\ console w' = console w ++ ["Error uploading image:"]
  /\ uploading w' = false.
Proof.
  intros Ht Hs Hu w'. subst w'.
  rewrite (handleImageUpload_refused w f e Ht Hs Hu). simpl.
  repeat split.
Qed.

(** X18. The blob store is called exactly for the files whose type starts
    with [image/] and whose size is at most 5242880 bytes. *)
Theorem upload_reaches_store_iff (w : world) (f : File) :
  calls (snd (handleImageUpload B (Some f) w)) <> calls w
  <-> (exists rest, type f = js "image/" ++ rest) /\ (size f <= 5242880)%N.
Proof.
  rewrite <- startsWith_app. change 5242880%N with max_size.
  destruct (startsWith (type f) (js "image/")) eqn:Ht.
  - destruct (max_size <? size f)%N eqn:Hs.
    + run. rewrite Ht, Hs. simpl. apply N.ltb_lt in Hs. split; [done|].
      intros [_ H]. lia.
    + apply N.ltb_ge in Hs. split; [done|]. intros _.
      destruct (upload_error B (filePath (clock B (ticks w)) (name f)))
        as [e|] eqn:Hu.
      * rewrite (handleImageUpload_refused w f e Ht Hs Hu). simpl.
        intros H. apply (f_equal length) in H. rewrite length_app in H.
        simpl in H. lia.
      * rewrite (handleImageUpload_accepted w f Ht Hs Hu). simpl.
        intros H. apply (f_equal length) in H. rewrite !length_app in H.
        simpl in H. lia.
  - run. rewrite Ht. simpl. split; [done|]. by intros [? _].
Qed.

End Upload.

(** ** The path of an upload *)

Lemma split_shape (sep : N) (s : jsstring) :
  exists ws e,
    split sep s = ws ++ [e]
    /\ (sep ∉ e)
    /\ ((ws = [] /\ s = e) \/ (ws <> [] /\ exists p, s = p ++ sep :: e)).
Proof.
  induction s as [|c r IH]; simpl.
  - exists [], []. split; [done|]. split; [by apply not_elem_of_nil|by left].
  - destruct IH as (ws & e & Hsp & He & Hs).
    destruct (c =? sep)%N eqn:Hc.
    + apply N.eqb_eq in Hc as ->. exists ([] :: ws), e. rewrite Hsp.
      split; [done|]. split; [done|]. right. split; [done|].
      destruct Hs as [[_ ->] | [_ [p ->]]]; [by exists []|by exists (sep :: p)].
    + apply N.eqb_neq in Hc. rewrite Hsp.
      destruct Hs as [[-> ->] | [Hne [p ->]]]; simpl.
      * exists [], (c :: e). split; [done|]. split; [|by left].
        apply not_elem_of_cons. by split.
      * destruct ws as [|w ws]; [done|]. simpl.
        exists ((c :: w) :: ws), e. split; [done|]. split; [done|]. right.
        split; [done|]. by exists (c :: p).
Qed.

Lemma pop_split (s : jsstring) :
  exists e, pop (split 46 s) = JStr e
            /\ (46%N ∉ e)
            /\ (s = e \/ exists p, s = p ++ 46%N :: e).
Proof.
  destruct (split_shape 46 s) as (ws & e & Hsp & He & Hs).
  exists e. unfold pop. rewrite Hsp, last_snoc. split; [done|]. split; [done|].
  destruct Hs as [[_ ->] | [_ Hp]]; [by left|by right].
Qed.

(** X19. The path of an upload is [design/hero-image-], the clock reading in
    decimal, a dot, and an extension without dots: what follows the last
    dot of the file name, or the whole name when it has no dot. It is never
    built from [undefined]. *)
Theorem filePath_extension (now : N) (name : jsstring) :
  exists e,
    filePath now name
    = js "design/hero-image-" ++ numberToString now ++ 46%N :: e
    /\ (46%N ∉ e)
    /\ (name = e \/ exists p, name = p ++ 46%N :: e).
Proof.
  destruct (pop_split name) as (e & Hp & He & Hn).
  exists e. split; [|done]. unfold filePath. rewrite Hp. reflexivity.
Qed.

Lemma js_inj (s1 s2 : string) : js s1 = js s2 -> s1 = s2.
Proof.
  unfold js. intros H.
  assert (list_ascii_of_string s1 = list_ascii_of_string s2) as Hl.
  { revert H. generalize (list_ascii_of_string s1) (list_ascii_of_string s2).
    intros l1. induction l1 as [|a l1 IH]; intros [|b l2] H;
      simpl in H; try done.
    injection H as Hab Hl. f_equal; [|by apply IH].
    rewrite <- (ascii_N_embedding a), <- (ascii_N_embedding b).
    by rewrite Hab. }
  rewrite <- (string_of_list_ascii_of_string s1).
  rewrite <- (string_of_list_ascii_of_string s2). by rewrite Hl.
Qed.

Lemma numberToString_inj (n1 n2 : N) :
  numberToString n1 = numberToString n2 -> n1 = n2.
Proof.
  unfold numberToString. intros H. apply js_inj in H.
  apply DecimalN.Unsigned.to_uint_inj.
  pose proof (NilEmpty.usu (N.to_uint n1)) as H1.
  pose proof (NilEmpty.usu (N.to_uint n2)) as H2.
  rewrite H in H1. congruence.
Qed.

Lemma numberToString_no_dot (n : N) : 46%N ∉ numberToString n.
Proof.
  unfold numberToString. generalize (N.to_uint n). intros d.
  induction d; simpl;
    [apply not_elem_of_nil | apply not_elem_of_cons; split; [done | exact IHd] ..].
Qed.

Lemma app_sep_inj (x : N) (l1 l2 r1 r2 : list N) :
  x ∉ l1 -> x ∉ l2 -> l1 ++ x :: r1 = l2 ++ x :: r2 -> l1 = l2 /\ r1 = r2.
Proof.
  revert l2. induction l1 as [|a l1 IH]; intros [|b l2] H1 H2 H; simpl in H.
  - by simplify_eq.
  - simplify_eq. exfalso. apply H2. by left.
  - simplify_eq. exfalso. apply H1. by left.
  - injection H as -> H.
    apply not_elem_of_cons in H1 as [_ H1].
    apply not_elem_of_cons in H2 as [_ H2].
    destruct (IH l2 H1 H2 H) as [-> ->]. done.
Qed.

(** X20. Two uploads get the same path exactly when their clock readings are
    the same millisecond and their file names end in the same extension:
    the rest of the file name plays no part, and a later reading always
    gives a fresh path. *)
Theorem filePath_collision (n1 n2 : N) (name1 name2 : jsstring) :
  filePath n1 name1 = filePath n2 name2
  <-> n1 = n2 /\ pop (split 46 name1) = pop (split 46 name2).
Proof.
  split.
  - destruct (pop_split name1) as (e1 & Hp1 & He1 & _).
    destruct (pop_split name2) as (e2 & Hp2 & He2 & _).
    unfold filePath. rewrite Hp1, Hp2. cbn [toStr]. intros H.
    do 2 apply app_inv_head in H.
    change (js "." ++ e1) with (46%N :: e1) in H.
    change (js "." ++ e2) with (46%N :: e2) in H.
    apply (app_sep_inj 46) in H as [Hn ->];
      [|apply numberToString_no_dot..].
    by apply numberToString_inj in Hn as ->.
  - intros [-> H]. unfold filePath. by rewrite H.
Qed.

(** ** Reset and edits, followed by a save *)

(** X21. After a reset to the defaults, an accepted save sends both
    documents, the design one without [hero_image_url] whatever image had
    been uploaded, and leaves the document alone: the default [custom_css]
    is the empty string, so a style override installed before stays. *)
Theorem reset_then_save (B : backend) (w : world) :
  (forall r, upsert_error B r = None) ->
  let w1 := snd (resetToDefaults w) in
  let w2 := snd (saveDesignSettings B w1) in
  designSettings w1 = defaults
  /\ calls w2
     = calls w ++ [CUpsert (design_upsert B w1); CUpsert (general_upsert B w1)]
  /\ u_setting_value (design_upsert B w1) !! "hero_image_url" = None
  /\ page w2 = page w
  /\ toasts w2
     = toasts w ++ [Toast "Settings Reset" "Design settings reset to defaults"
                          false; saved_toast].
Proof.
  intros Hok w1 w2. subst w2.
  assert (designSettings w1 = defaults) as Hs by done.
  assert (has_general (designSettings w1) = true) as Hg by by rewrite Hs.
  assert (truthy (get (designSettings w1) "custom_css") = false) as Hc
    by by rewrite Hs.
  destruct (save_accepted B w1 Hok) as [Hcalls _]. rewrite Hg in Hcalls.
  destruct (saveDesignSettings_succeeds B w1 Hok (or_introl Hc)) as [Htoasts _].
  split; [done|]. split; [exact Hcalls|]. split; [done|]. split.
  - by rewrite save_page_unchanged.
  - rewrite Htoasts. change (toasts w1) with (toasts w ++
      [Toast "Settings Reset" "Design settings reset to defaults" false]).
    by rewrite <- app_assoc.
Qed.

(** X22. A value typed into one of the form's fields is what a load gives
    back after an accepted save, whatever the loading session held in
    memory before: the empty string included for every field other than
    [server_name] and [welcome_message]; for those two the value has to be
    non-empty. *)
Theorem edited_value_survives (B1 B2 : backend) (w : world)
    (s0 : gmap string jsval) k value :
  (forall r, upsert_error B1 r = None) ->
  k ∈ editable ->
  let w1 := snd (onChange k value w) in
  reports (server_settings (snd (saveDesignSettings B1 w1)))
          (select_response B2) ->
  (whitelisted k -> value <> []) ->
  designSettings
    (snd (fetchDesignSettings B2
            (set_designSettings s0 (snd (saveDesignSettings B1 w1))))) !! k
  = Some (JStr value).
Proof.
  intros Hok Hed w1 Hrep Hv.
  rewrite (lookup_load_after_save B1 B2 w1 _ k Hok Hrep).
  assert (designSettings w1 !! k = Some (JStr value)) as Hk
    by apply lookup_insert_eq.
  assert (get (designSettings w1) k = JStr value) as Hg
    by (unfold get; by rewrite Hk).
  assert (k <> "__proto__") as Hp.
  { intros ->. unfold editable in Hed.
    repeat (apply elem_of_cons in Hed as [Hed|Hed]; [discriminate|]).
    by apply elem_of_nil in Hed. }
  case_decide as Hw.
  - assert (has_general (designSettings w1) = true) as ->; [|by rewrite Hg].
    specialize (Hv Hw). unfold has_general.
    destruct Hw as [-> | ->]; rewrite Hg; destruct value; try done.
    apply orb_true_r.
  - rewrite decide_False by done. by rewrite lookup_toJSON_eq, Hk.
Qed.

(** X23. An uploaded image is kept by the next save: after an accepted
    upload and an accepted save, a load of the stored rows, in a session
    that holds any settings object in memory, gives as [hero_image_url] the
    public URL of the path uploaded to. *)
Theorem upload_save_load (B0 B1 B2 : backend) (w : world) (f : File)
    (s0 : gmap string jsval) :
  startsWith (type f) (js "image/") = true ->
  (size f <= max_size)%N ->
  upload_error B0 (filePath (clock B0 (ticks w)) (name f)) = None ->
  (forall r, upsert_error B1 r = None) ->
  let w1 := snd (handleImageUpload B0 (Some f) w) in
  reports (server_settings (snd (saveDesignSettings B1 w1)))
          (select_response B2) ->
  designSettings
    (snd (fetchDesignSettings B2
            (set_designSettings s0 (snd (saveDesignSettings B1 w1)))))
    !! "hero_image_url"
  = Some (JStr (publicUrl B0 (filePath (clock B0 (ticks w)) (name f)))).
Proof.
  intros Ht Hs Hu Hok w1 Hrep.
  rewrite (lookup_load_after_save B1 B2 w1 _ _ Hok Hrep).
  rewrite decide_False by (intros [? | ?]; discriminate).
  rewrite decide_False by discriminate.
  assert (designSettings w1
          = <["hero_image_url" :=
                JStr (publicUrl B0 (filePath (clock B0 (ticks w)) (name f)))]>
              (designSettings w)) as Hd.
  { subst w1. by rewrite (handleImageUpload_accepted B0 w f Ht Hs Hu). }
  rewrite lookup_toJSON_eq, Hd, lookup_insert_eq.
  done.
Qed.

(** ** Instances of the further properties *)

Lemma is_json_toJSON (o : gmap string jsval) : toJSON o = o -> is_json o.
Proof.
  intros H k Hk. rewrite <- H in Hk. apply lookup_toJSON in Hk as [_ Hk].
  done.
Qed.

Lemma save_design_refused_witness :
  let w := set_designSettings {[ "server_name" := JStr (js "Foo") ]} idle in
  server_settings
    (snd (saveDesignSettings (refusing_upsert "design_settings") w)) = ∅.
Proof.
  intros w.
  apply (save_design_refused (refusing_upsert "design_settings") w
           (PostgrestError "refused")).
  reflexivity.
Defined.

Lemma save_general_refused_witness :
  let w := set_designSettings {[ "server_name" := JStr (js "Foo") ]} idle in
  let B := refusing_upsert "general_settings" in
  server_settings (snd (saveDesignSettings B w))
  = <["design_settings" := stored_of (design_upsert B w)]> ∅.
Proof.
  intros w B.
  apply (save_general_refused B w (PostgrestError "refused"));
    reflexivity.
Defined.

Lemma save_succeeds_witness :
  let w := set_designSettings {[ "custom_css" := JStr (js "a{}") ]} idle in
  toasts (snd (saveDesignSettings (accepting (Response None None)) w))
  = [saved_toast].
Proof.
  intros w.
  apply (save_succeeds (accepting (Response None None)) w).
  - intros r. reflexivity.
  - right. by exists (js "a{}").
Defined.

Lemma save_css_not_a_string_witness :
  let w := set_page (Document [Element "style" custom_design_css (js "a{}")] [])
             (set_designSettings {[ "custom_css" := JNum 5 ]} idle) in
  page (snd (saveDesignSettings (accepting (Response None None)) w))
  = Document [] [].
Proof.
  intros w.
  apply (save_css_not_a_string (accepting (Response None None)) w).
  - intros r. reflexivity.
  - reflexivity.
  - intros css. discriminate.
Defined.

Lemma save_blank_css_clears_witness :
  let w := set_page (Document [Element "style" custom_design_css (js "a{}")] [])
             (set_designSettings {[ "custom_css" := JStr (js "  ") ]} idle) in
  overrides (page (snd (saveDesignSettings (accepting (Response None None)) w)))
  = [].
Proof.
  intros w.
  apply (save_blank_css_clears (accepting (Response None None)) w (js "  ")).
  - intros r. reflexivity.
  - reflexivity.
  - discriminate.
  - reflexivity.
  - vm_compute. lia.
Defined.

Lemma save_general_document_witness :
  let w := set_designSettings {[ "server_name" := JStr (js "Foo") ]} idle in
  toJSON (generalData (designSettings w)) !! "welcome_message" = None.
Proof.
  intros w.
  apply (save_general_document (accepting (Response None None)) w
           "welcome_message").
  - intros r. reflexivity.
  - reflexivity.
Defined.

Lemma load_after_save_witness :
  let s : gmap string jsval :=
    {[ "primary_color" := JStr (js "#123456");
       "server_name" := JStr (js "Foo") ]} in
  let w := set_designSettings s idle in
  let B1 := accepting (Response None None) in
  let B2 := accepting (Response
    (Some [Row "design_settings" {[ "primary_color" := JStr (js "#123456") ]};
           Row "general_settings" {[ "server_name" := JStr (js "Foo") ]}])
    None) in
  designSettings
    (snd (fetchDesignSettings B2 (snd (saveDesignSettings B1 w))))
    !! "welcome_message" = Some JUndefined.
Proof.
  intros s w B1 B2.
  apply (load_after_save B1 B2 w "welcome_message").
  - intros r. reflexivity.
  - split; [reflexivity|]. eexists. split; [reflexivity|].
    vm_compute. reflexivity.
Defined.

Lemma blank_names_come_back_witness :
  let old := Stored {[ "server_name" := JStr (js "Old") ]} (js "t0") in
  let w := set_server_settings {[ "general_settings" := old ]}
             (set_designSettings {[ "server_name" := JStr [] ]} idle) in
  let B1 := accepting (Response None None) in
  let B2 := accepting (Response
    (Some [Row "general_settings" {[ "server_name" := JStr (js "Old") ]};
           Row "design_settings" ∅]) None) in
  get (designSettings
         (snd (fetchDesignSettings B2 (snd (saveDesignSettings B1 w)))))
      "server_name"
  = JStr (js "Old").
Proof.
  intros old w B1 B2.
  apply (blank_names_come_back B1 B2 w old "server_name").
  - intros r. reflexivity.
  - split; [reflexivity|]. eexists. split; [reflexivity|].
    vm_compute. apply perm_swap.
  - reflexivity.
  - reflexivity.
  - reflexivity.
  - by left.
Defined.

Lemma load_then_save_store_witness :
  let d : gmap string jsval :=
    {[ "__proto__" := JStr (js "x"); "primary_color" := JStr (js "#123456") ]} in
  let g : gmap string jsval :=
    {[ "server_name" := JStr (js "Foo"); "discord" := JStr (js "x") ]} in
  let w := set_server_settings
             {[ "design_settings" := Stored d (js "t0");
                "general_settings" := Stored g (js "t1") ]} idle in
  let B1 := accepting (Response
    (Some [Row "general_settings" g; Row "design_settings" d]) None) in
  let B2 := accepting (Response None None) in
  st_value <$>
    server_settings
      (snd (saveDesignSettings B2 (snd (fetchDesignSettings B1 w))))
      !! "design_settings"
  = Some {[ "primary_color" := JStr (js "#123456") ]}.
Proof.
  intros d g w B1 B2.
  apply (load_then_save_store B1 B2 w d g (js "t0") (js "t1")).
  - reflexivity.
  - reflexivity.
  - apply is_json_toJSON. vm_compute. reflexivity.
  - apply is_json_toJSON. vm_compute. reflexivity.
  - reflexivity.
  - reflexivity.
  - split; [reflexivity|]. eexists. split; [reflexivity|].
    vm_compute. apply perm_swap.
  - intros r. reflexivity.
Defined.

Lemma upload_accepted_witness :
  let f := MkFile (js "hero.v2.png") (js "image/png") (5 * 1024 * 1024) in
  let B := accepting (Response None None) in
  calls (snd (handleImageUpload B (Some f) idle))
  = [CUpload "user-avatars" (js "design/hero-image-1700000000000.png") f;
     CGetPublicUrl "user-avatars" (js "design/hero-image-1700000000000.png")].
Proof.
  intros f B.
  apply (upload_accepted B idle f).
  - reflexivity.
  - vm_compute. discriminate.
  - reflexivity.
Defined.

Lemma upload_refused_by_store_witness :
  let f := MkFile (js "hero") (js "image/png") 10 in
  calls (snd (handleImageUpload refusing_upload (Some f) idle))
  = [CUpload "user-avatars" (js "design/hero-image-1700000000000.hero") f].
Proof.
  intros f.
  apply (upload_refused_by_store refusing_upload idle f
           (StorageError "refused")).
  - reflexivity.
  - vm_compute. discriminate.
  - reflexivity.
Defined.

Lemma reset_then_save_witness :
  let w := set_page (Document [Element "style" custom_design_css (js "a{}")] [])
             (set_designSettings
                {[ "hero_image_url" := JStr (js "https://cdn.example/x.png") ]}
                idle) in
  page (snd (saveDesignSettings (accepting (Response None None))
               (snd (resetToDefaults w))))
  = Document [Element "style" custom_design_css (js "a{}")] [].
Proof.
  intros w.
  apply (reset_then_save (accepting (Response None None)) w).
  intros r. reflexivity.
Defined.

Lemma edited_value_survives_witness :
  let B1 := accepting (Response None None) in
  let B2 := accepting (Response
    (Some [Row "design_settings" {[ "font_primary" := JStr [] ]}]) None) in
  let s0 : gmap string jsval := {[ "font_primary" := JStr (js "Inter") ]} in
  designSettings
    (snd (fetchDesignSettings B2
       (set_designSettings s0
          (snd (saveDesignSettings B1
                  (snd (onChange "font_primary" [] idle)))))))
    !! "font_primary"
  = Some (JStr []).
Proof.
  intros B1 B2 s0.
  apply (edited_value_survives B1 B2 idle s0 "font_primary" []).
  - intros r. reflexivity.
  - unfold editable. set_solver.
  - split; [reflexivity|]. eexists. split; [reflexivity|].
    vm_compute. reflexivity.
  - intros [H | H]; discriminate.
Defined.

Lemma upload_save_load_witness :
  let f := MkFile (js "hero.png") (js "image/png") 10 in
  let B := accepting (Response None None) in
  let url := js "https://cdn.example/design/hero-image-1700000000000.png" in
  let B2 := accepting (Response
    (Some [Row "design_settings" {[ "hero_image_url" := JStr url ]}]) None) in
  designSettings
    (snd (fetchDesignSettings B2
       (set_designSettings ∅
          (snd (saveDesignSettings B
                  (snd (handleImageUpload B (Some f) idle)))))))
    !! "hero_image_url"
  = Some (JStr url).
Proof.
  intros f B url B2.
  apply (upload_save_load B B B2 idle f ∅).
  - reflexivity.
  - vm_compute. discriminate.
  - reflexivity.
  - intros r. reflexivity.
  - split; [reflexivity|]. eexists. split; [reflexivity|].
    vm_compute. reflexivity.
Defined.
